(** * CMSIS-DAP over USB HID: the [hid] backend of the CMSIS-DAP driver

    A shallow embedding of [src/jtag/drivers/cmsis_dap_usb_hid.c] and the
    properties of its operations: device matching and quirk lookup in
    [cmsis_dap_hid_open], the framing done by [cmsis_dap_hid_read] and
    [cmsis_dap_hid_write], and the packet buffer of [cmsis_dap_hid_alloc].

    C integers are [Z] with the wrap-around of unsigned arithmetic written
    out; NUL-terminated strings are the list of their characters before the
    terminator; the HIDAPI library and the C allocator are an explicit
    [host] of answers together with a [world] of resources that the calls
    acquire and release. *)

From Stdlib Require Import ZArith List Bool Lia String Ascii.
Import ListNotations.
Local Open Scope Z_scope.

(** ** Constants of the headers *)

Module Consts.

(** Modelled from the spec: the return codes of [helper/log.h], which is not
    among the sources.  The spec names the outcomes (success, a generic
    failure, [TimeoutReached]); the numbers are the ones of OpenOCD. *)
Definition ERROR_OK : Z := 0.
Definition ERROR_FAIL : Z := -4.
Definition ERROR_TIMEOUT_REACHED : Z := -6.

(** Modelled from the spec: [REPORT_ID_SIZE] of [cmsis_dap.h], the one-byte
    report prefix. *)
Definition REPORT_ID_SIZE : Z := 1.

(** [unsigned int] is 32 bits wide, [size_t] 64 bits. *)
Definition UINT_MAX : Z := 4294967295.
Definition SIZE_MAX : Z := 18446744073709551615.

Definition to_uint (z : Z) : Z := z mod (UINT_MAX + 1).
Definition to_size_t (z : Z) : Z := z mod (SIZE_MAX + 1).

End Consts.
Export Consts.

(** ** Undefined behaviour

    A C operation that dereferences a null pointer or touches memory outside
    the object it was given has no defined result. *)

Inductive result (A : Type) : Type :=
| Ok (a : A)
| Undefined.
Arguments Ok {A} a.
Arguments Undefined {A}.

Definition bind {A B : Type} (r : result A) (k : A -> result B) : result B :=
  match r with
  | Ok a => k a
  | Undefined => Undefined
  end.

Definition deref {A : Type} (p : option A) : result A :=
  match p with
  | Some a => Ok a
  | None => Undefined
  end.

Declare Scope c_scope.
Delimit Scope c_scope with c.
Notation "'do' x <- r ; k" := (bind r (fun x => k))
  (at level 10, x pattern, r at level 100, k at level 200) : c_scope.
Local Open Scope c_scope.

(** ** Wide strings and the libc routines used on them *)

Module Wide.

(** A [wchar_t *] string: the characters before the terminating NUL. *)
Definition wstring := list Z.

Definition wide_of_string (s : string) : wstring :=
  map (fun c => Z.of_nat (nat_of_ascii c)) (list_ascii_of_string s).

(** [L"CMSIS-DAP"] *)
Definition cmsis_dap_marker : wstring := Eval cbv in wide_of_string "CMSIS-DAP".

Fixpoint starts_with (needle hay : wstring) : bool :=
  match needle, hay with
  | [], _ => true
  | _ :: _, [] => false
  | n :: needle', c :: hay' => (n =? c) && starts_with needle' hay'
  end.

(** [wcsstr]: the tail of [hay] at the first occurrence of [needle], or NULL. *)
Fixpoint wcsstr (hay needle : wstring) : option wstring :=
  if starts_with needle hay then Some hay
  else match hay with
       | [] => None
       | _ :: hay' => wcsstr hay' needle
       end.

(** [wcscmp]: negative, zero or positive as the first string is less than,
    equal to or greater than the second. *)
Fixpoint wcscmp (a b : wstring) : Z :=
  match a, b with
  | [], [] => 0
  | [], _ :: _ => -1
  | _ :: _, [] => 1
  | x :: a', y :: b' =>
      if x <? y then -1 else if y <? x then 1 else wcscmp a' b'
  end.

End Wide.
Export Wide.

(** ** The device list of HIDAPI *)

(** The fields of [struct hid_device_info] that the driver reads; the [next]
    link is the tail of the list the record sits in. *)
Record hid_device_info : Type := {
  path : string;
  vendor_id : Z;
  product_id : Z;
  serial_number : option wstring;
  product_string : option wstring;
  interface_number : Z
}.

(** ** The report size quirks *)

Record cmsis_dap_report_size : Type := {
  vid : Z;
  pid : Z;
  report_size : Z
}.

Definition quirk (v p sz : Z) : cmsis_dap_report_size :=
  {| vid := v; pid := p; report_size := sz |}.

Definition report_size_quirks : list cmsis_dap_report_size :=
  [ quirk 0x03eb 0x2140 512;   (* Atmel JTAG-ICE 3 *)
    quirk 0x03eb 0x2141 512;   (* Atmel-ICE *)
    quirk 0x03eb 0x2144 512;   (* Atmel Power Debugger *)
    quirk 0x03eb 0x2111 512;   (* EDBG *)
    quirk 0x03eb 0x2157 512;   (* Zero *)
    quirk 0x03eb 0x2169 512;   (* EDBG with Mass Storage *)
    quirk 0x03eb 0x216a 512;   (* Commercially available EDBG *)
    quirk 0x03eb 0x2170 512;   (* Kraken *)
    quirk 0 0 0 ].

(** The loop [for (i = 0; report_size_quirks[i].vid != 0; i++)] of
    [cmsis_dap_hid_open], run on the entries from index [i] on, with
    [packet_size] the value assigned so far. *)
Fixpoint quirk_loop (tbl : list cmsis_dap_report_size)
    (target_vid target_pid packet_size : Z) : Z :=
  match tbl with
  | [] => packet_size
  | e :: rest =>
      if vid e =? 0 then packet_size
      else quirk_loop rest target_vid target_pid
             (if (vid e =? target_vid) && (pid e =? target_pid)
              then report_size e else packet_size)
  end.

(** [unsigned int packet_size = 64;] followed by the quirk loop. *)
Definition open_packet_size (target_vid target_pid : Z) : Z :=
  quirk_loop report_size_quirks target_vid target_pid 64.

(** ** Matching one device (the body of the scan up to [if (found)]) *)

(** The arrays [vids] and [pids] are read at the same index throughout, so
    they are one list of pairs: entry [i] is [(vids[i], pids[i])].  The list
    holds the entries in front of the terminating pair of zeros that the
    caller's arrays end with. *)
Definition usb_ids := list (Z * Z).

(** [vids[0] == 0] *)
Definition first_vid_is_zero (ids : usb_ids) : bool :=
  match ids with
  | [] => true
  | (v, _) :: _ => v =? 0
  end.

(** [for (i = 0; vids[i] || pids[i]; i++) if (...) found = true;] *)
Fixpoint vid_pid_loop (ids : usb_ids) (d : hid_device_info) (found : bool) : bool :=
  match ids with
  | [] => found
  | (v, p) :: rest =>
      if (v =? 0) && (p =? 0) then found
      else vid_pid_loop rest d
             (if (v =? vendor_id d) && (p =? product_id d) then true else found)
  end.

(** The first [if]/[else] of the loop body: product string or VID:PID list. *)
Definition found_by_filter (ids : usb_ids) (d : hid_device_info) : bool :=
  if first_vid_is_zero ids then
    match product_string d with
    | None => false
    | Some ps =>
        match wcsstr ps cmsis_dap_marker with
        | Some _ => true
        | None => false
        end
    end
  else vid_pid_loop ids d false.

(** LPC-LINK2 has cmsis-dap on interface 0 and other HID functions on other
    interfaces. *)
Definition is_lpc_link2_other_interface (d : hid_device_info) : bool :=
  (vendor_id d =? 0x1fc9) && (product_id d =? 0x0090)
  && negb (interface_number d =? 0).

(** The value of [found] when the loop body reaches [if (found)]. *)
Definition device_found (ids : usb_ids) (d : hid_device_info) : bool :=
  let found := found_by_filter ids d in
  if is_lpc_link2_other_interface d then false else found.

(** ** The host: HIDAPI, the allocator and the locale

    What the calls the driver makes return.  The [k]-th call of [malloc]
    (counted from 0 in [n_malloc]) succeeds when [malloc_ok k] holds; the
    [k]-th transfer on the transport (counted by the length of [hid_log])
    has the result the read and write answers give for it. *)

Record host : Type := {
  hid_init_ret : Z;                            (* hid_init() *)
  hid_devices : list hid_device_info;          (* hid_enumerate(0x0, 0x0) *)
  hid_can_open : string -> bool;               (* hid_open_path(path) != NULL *)
  malloc_ok : nat -> bool;                     (* malloc(...) != NULL *)
  heap_garbage : nat -> Z;                     (* bytes of fresh memory *)
  mbstowcs : string -> option wstring;         (* None: (size_t)-1 *)
  hid_read_answer : nat -> Z -> Z -> Z * list Z;  (* call, length, milliseconds *)
  hid_write_answer : nat -> list Z -> Z        (* call, report *)
}.

Inductive hid_call : Type :=
| Hid_read_timeout (dev : nat) (length : Z) (milliseconds : Z)
| Hid_write (dev : nat) (data : list Z).

Record world : Type := {
  hid_ready : bool;            (* hid_init() done and no hid_exit() since *)
  enums_live : nat;            (* enumerations not yet freed *)
  handles : list nat;          (* open hid_device handles *)
  next_handle : nat;           (* the handle the next hid_open_path returns *)
  n_malloc : nat;              (* calls of malloc so far *)
  heap_blocks : nat;           (* blocks allocated and not freed *)
  hid_log : list hid_call      (* transfers, the latest first *)
}.

Module Hidapi.

Definition hid_init (h : host) (w : world) : Z * world :=
  let r := hid_init_ret h in
  (r, {| hid_ready := if r =? 0 then true else hid_ready w;
         enums_live := enums_live w; handles := handles w;
         next_handle := next_handle w; n_malloc := n_malloc w;
         heap_blocks := heap_blocks w; hid_log := hid_log w |}).

Definition hid_exit (w : world) : world :=
  {| hid_ready := false;
     enums_live := enums_live w; handles := handles w;
     next_handle := next_handle w; n_malloc := n_malloc w;
     heap_blocks := heap_blocks w; hid_log := hid_log w |}.

Definition hid_enumerate (h : host) (w : world) : list hid_device_info * world :=
  (hid_devices h,
   {| hid_ready := hid_ready w;
      enums_live := S (enums_live w); handles := handles w;
      next_handle := next_handle w; n_malloc := n_malloc w;
      heap_blocks := heap_blocks w; hid_log := hid_log w |}).

Definition hid_free_enumeration (w : world) : world :=
  {| hid_ready := hid_ready w;
     enums_live := Nat.pred (enums_live w); handles := handles w;
     next_handle := next_handle w; n_malloc := n_malloc w;
     heap_blocks := heap_blocks w; hid_log := hid_log w |}.

Definition hid_open_path (h : host) (p : string) (w : world) : option nat * world :=
  if hid_can_open h p then
    (Some (next_handle w),
     {| hid_ready := hid_ready w;
        enums_live := enums_live w; handles := next_handle w :: handles w;
        next_handle := S (next_handle w); n_malloc := n_malloc w;
        heap_blocks := heap_blocks w; hid_log := hid_log w |})
  else (None, w).

Definition hid_close (dev : nat) (w : world) : world :=
  {| hid_ready := hid_ready w;
     enums_live := enums_live w;
     handles := filter (fun x => negb (Nat.eqb x dev)) (handles w);
     next_handle := next_handle w; n_malloc := n_malloc w;
     heap_blocks := heap_blocks w; hid_log := hid_log w |}.

Definition log_call (c : hid_call) (w : world) : world :=
  {| hid_ready := hid_ready w;
     enums_live := enums_live w; handles := handles w;
     next_handle := next_handle w; n_malloc := n_malloc w;
     heap_blocks := heap_blocks w; hid_log := c :: hid_log w |}.

(** [hid_read_timeout(dev, data, length, milliseconds)]: the return value and
    the bytes of the report received. *)
Definition hid_read_timeout (h : host) (dev : nat) (length milliseconds : Z)
    (w : world) : (Z * list Z) * world :=
  (hid_read_answer h (List.length (hid_log w)) length milliseconds,
   log_call (Hid_read_timeout dev length milliseconds) w).

(** [hid_write(dev, data, length)] with [data] the [length] bytes handed over. *)
Definition hid_write (h : host) (dev : nat) (data : list Z) (w : world) : Z * world :=
  (hid_write_answer h (List.length (hid_log w)) data,
   log_call (Hid_write dev data) w).

End Hidapi.
Export Hidapi.

Module Libc.

(** [malloc(size)]: NULL, or a block of [size] bytes of unspecified content. *)
Definition malloc (h : host) (size : Z) (w : world) : option (list Z) * world :=
  if malloc_ok h (n_malloc w) then
    (Some (map (heap_garbage h) (seq 0 (Z.to_nat size))),
     {| hid_ready := hid_ready w;
        enums_live := enums_live w; handles := handles w;
        next_handle := next_handle w; n_malloc := S (n_malloc w);
        heap_blocks := S (heap_blocks w); hid_log := hid_log w |})
  else
    (None,
     {| hid_ready := hid_ready w;
        enums_live := enums_live w; handles := handles w;
        next_handle := next_handle w; n_malloc := S (n_malloc w);
        heap_blocks := heap_blocks w; hid_log := hid_log w |}).

(** [free(p)]; [free(NULL)] does nothing. *)
Definition free {A : Type} (p : option A) (w : world) : world :=
  match p with
  | None => w
  | Some _ =>
      {| hid_ready := hid_ready w;
         enums_live := enums_live w; handles := handles w;
         next_handle := next_handle w; n_malloc := n_malloc w;
         heap_blocks := Nat.pred (heap_blocks w); hid_log := hid_log w |}
  end.

(** The return value of [mbstowcs]: the number of wide characters, or
    [(size_t)-1] for a byte sequence that is invalid in the locale. *)
Definition mbstowcs_ret (h : host) (s : string) : Z :=
  match mbstowcs h s with
  | Some ws => Z.of_nat (List.length ws)
  | None => SIZE_MAX
  end.

(** [memset(buf + start, c, n)] on the block [buf]: defined when the [n]
    bytes from [start] lie inside the block. *)
Definition memset (buf : list Z) (start c n : Z) : result (list Z) :=
  if (0 <=? start) && (0 <=? n) && (start + n <=? Z.of_nat (List.length buf)) then
    Ok (firstn (Z.to_nat start) buf ++ repeat c (Z.to_nat n)
        ++ skipn (Z.to_nat (start + n)) buf)
  else Undefined.

(** The first [n] bytes of a block, as a callee reads them. *)
Definition load_bytes (buf : list Z) (n : Z) : result (list Z) :=
  if (0 <=? n) && (n <=? Z.of_nat (List.length buf)) then Ok (firstn (Z.to_nat n) buf)
  else Undefined.

(** The block with its first bytes replaced by [data], as a callee fills it. *)
Definition store_bytes (buf data : list Z) : list Z :=
  data ++ skipn (List.length data) buf.

(** What a callee that was handed the pointer [p] leaves behind it after
    storing the bytes [data] it received: nothing is touched when there is
    nothing to store; otherwise the bytes go through the pointer, which has
    to point to a block that holds them. *)
Definition receive (p : option (list Z)) (data : list Z) : result (option (list Z)) :=
  match data with
  | [] => Ok p
  | _ :: _ =>
      do buf <- deref p;
      if Nat.leb (List.length data) (List.length buf)
      then Ok (Some (store_bytes buf data))
      else Undefined
  end.

End Libc.
Export Libc.

(** ** The session *)

(** [struct cmsis_dap_backend_data]; a [dev_handle] that was never assigned
    is no handle, like NULL. *)
Record cmsis_dap_backend_data : Type := {
  dev_handle : option nat
}.

(** The fields of [struct cmsis_dap] (declared in [cmsis_dap.h]) that the
    backend touches.  [packet_buffer] is NULL or the bytes of the block it
    points to; [command] and [response] point into that block and are its
    offsets. *)
Record cmsis_dap : Type := {
  bdata : option cmsis_dap_backend_data;
  packet_size : Z;
  packet_usable_size : Z;
  packet_buffer_size : Z;
  packet_buffer : option (list Z);
  command : option Z;
  response : option Z
}.

(** [enum cmsis_dap_blocking] of [cmsis_dap.h]. *)
Inductive cmsis_dap_blocking : Type :=
| CMSIS_DAP_NON_BLOCKING
| CMSIS_DAP_BLOCKING.

Definition set_bdata (dap : cmsis_dap) (b : option cmsis_dap_backend_data) : cmsis_dap :=
  {| bdata := b; packet_size := packet_size dap;
     packet_usable_size := packet_usable_size dap;
     packet_buffer_size := packet_buffer_size dap;
     packet_buffer := packet_buffer dap;
     command := command dap; response := response dap |}.

Definition set_packet_buffer (dap : cmsis_dap) (b : option (list Z)) : cmsis_dap :=
  {| bdata := bdata dap; packet_size := packet_size dap;
     packet_usable_size := packet_usable_size dap;
     packet_buffer_size := packet_buffer_size dap;
     packet_buffer := b;
     command := command dap; response := response dap |}.

Definition set_views (dap : cmsis_dap) (c r : option Z) : cmsis_dap :=
  {| bdata := bdata dap; packet_size := packet_size dap;
     packet_usable_size := packet_usable_size dap;
     packet_buffer_size := packet_buffer_size dap;
     packet_buffer := packet_buffer dap;
     command := c; response := r |}.

(** [p + n] for a pointer [p] into the packet buffer. *)
Definition ptr_add (p : option Z) (n : Z) : option Z :=
  match p with
  | Some o => Some (o + n)
  | None => None
  end.

(** [dap->packet_buffer] as a pointer: the start of its block, or NULL. *)
Definition packet_buffer_ptr (dap : cmsis_dap) : option Z :=
  match packet_buffer dap with
  | Some _ => Some 0
  | None => None
  end.

Definition sizeof_wchar_t : Z := 4.
Definition sizeof_backend_data : Z := 8.

Module Driver.

(** *** [cmsis_dap_hid_alloc] *)
Definition cmsis_dap_hid_alloc (h : host) (dap : cmsis_dap) (pkt_sz : Z) (w : world)
    : Z * cmsis_dap * world :=
  let packet_buffer_size := to_uint (pkt_sz + REPORT_ID_SIZE) in   (* unsigned int *)
  let (buf, w) := malloc h packet_buffer_size w in
  match buf with
  | None => (ERROR_FAIL, dap, w)                                  (* if (!buf) *)
  | Some _ =>
      let dap :=
        {| bdata := bdata dap;
           packet_size := pkt_sz;
           packet_usable_size := pkt_sz;
           packet_buffer_size := packet_buffer_size;
           packet_buffer := buf;
           command := command dap;
           response := response dap |} in
      let dap := set_views dap (ptr_add (packet_buffer_ptr dap) REPORT_ID_SIZE)
                           (packet_buffer_ptr dap) in
      (ERROR_OK, dap, w)
  end.

(** *** [cmsis_dap_hid_free] *)
Definition cmsis_dap_hid_free (dap : cmsis_dap) (w : world) : cmsis_dap * world :=
  let w := free (packet_buffer dap) w in
  (set_packet_buffer dap None, w).

(** *** [cmsis_dap_hid_close] *)
Definition cmsis_dap_hid_close (dap : cmsis_dap) (w : world) : result (cmsis_dap * world) :=
  do bd <- deref (bdata dap);
  do dev <- deref (dev_handle bd);
  let w := hid_close dev w in
  let w := hid_exit w in
  let w := free (bdata dap) w in
  let dap := set_bdata dap None in
  Ok (cmsis_dap_hid_free dap w).

(** *** [cmsis_dap_hid_read] *)
Definition read_wait_ms (transfer_timeout_ms : Z) (blocking : cmsis_dap_blocking) : Z :=
  match blocking with
  | CMSIS_DAP_NON_BLOCKING => 0
  | CMSIS_DAP_BLOCKING => transfer_timeout_ms
  end.

Definition cmsis_dap_hid_read (h : host) (dap : cmsis_dap) (transfer_timeout_ms : Z)
    (blocking : cmsis_dap_blocking) (w : world) : result (Z * cmsis_dap * world) :=
  let wait_ms := read_wait_ms transfer_timeout_ms blocking in
  do bd <- deref (bdata dap);
  do dev <- deref (dev_handle bd);
  let '((retval, data), w) := hid_read_timeout h dev (packet_buffer_size dap) wait_ms w in
  let received := firstn (Z.to_nat (Z.min retval (packet_buffer_size dap))) data in
  do filled <- receive (packet_buffer dap) received;   (* hid_read_timeout fills the buffer *)
  let dap := set_packet_buffer dap filled in
  if retval =? 0 then Ok (ERROR_TIMEOUT_REACHED, dap, w)
  else if retval =? -1 then Ok (ERROR_FAIL, dap, w)
  else Ok (retval, dap, w).

(** *** [cmsis_dap_hid_write] *)

(** The third argument of the [memset]: [dap->packet_size - txlen], an
    [unsigned int]. *)
Definition pad_length (dap : cmsis_dap) (txlen : Z) : Z :=
  to_uint (packet_size dap - txlen).

Definition cmsis_dap_hid_write (h : host) (dap : cmsis_dap) (txlen timeout_ms : Z)
    (w : world) : result (Z * cmsis_dap * world) :=
  do buf <- deref (packet_buffer dap);
  do buf <- memset buf 0 0 1;                 (* dap->packet_buffer[0] = 0 *)
  do cmd <- deref (command dap);
  do buf <- memset buf (cmd + txlen) 0 (pad_length dap txlen);
  do bd <- deref (bdata dap);
  do dev <- deref (dev_handle bd);
  do data <- load_bytes buf (packet_buffer_size dap);
  let (retval, w) := hid_write h dev data w in
  let dap := set_packet_buffer dap (Some buf) in
  if retval =? -1 then Ok (ERROR_FAIL, dap, w)
  else Ok (retval, dap, w).

(** *** [cmsis_dap_hid_cancel_all] *)
Definition cmsis_dap_hid_cancel_all (dap : cmsis_dap) (w : world) : cmsis_dap * world :=
  (dap, w).

(** *** [cmsis_dap_hid_open] *)

(** How the [while (cur_dev)] loop is left: by the [return ERROR_FAIL] after
    the failed allocation of the serial buffer, or with [cur_dev] at the
    device of the [break], or NULL at the end of the list. *)
Inductive scan_result : Type :=
| Scan_return_fail
| Scan_left (cur_dev : option hid_device_info).

(** What [wcscmp] reads in [wserial] after [mbstowcs(wserial, serial, len)]:
    the converted serial when it was written with its terminator into the
    [len] characters; a block that holds no terminated string otherwise. *)
Definition wserial_string (h : host) (serial : string) (len : Z) : result wstring :=
  match mbstowcs h serial with
  | Some ws => if Z.of_nat (List.length ws) <? len then Ok ws else Undefined
  | None => Undefined
  end.

Fixpoint scan_devices (h : host) (ids : usb_ids) (serial : option string)
    (cur : list hid_device_info) (w : world) : result (scan_result * world) :=
  match cur with
  | [] => Ok (Scan_left None, w)
  | cur_dev :: next =>
      if device_found ids cur_dev then
        match serial with
        | None => Ok (Scan_left (Some cur_dev), w)             (* if (!serial) break *)
        | Some s =>
            match serial_number cur_dev with
            | None => scan_devices h ids serial next w         (* cur_dev = cur_dev->next *)
            | Some dev_serial =>
                let len := to_size_t (mbstowcs_ret h s + 1) in
                let (wserial, w) := malloc h (to_size_t (len * sizeof_wchar_t)) w in
                match wserial with
                | None => Ok (Scan_return_fail, w)
                | Some _ =>
                    do ws <- wserial_string h s len;
                    if wcscmp ws dev_serial =? 0
                    then Ok (Scan_left (Some cur_dev), free wserial w)
                    else scan_devices h ids serial next (free wserial w)
                end
            end
        end
      else scan_devices h ids serial next w
  end.

(** The [return] statement by which [cmsis_dap_hid_open] is left. *)
Inductive open_exit : Type :=
| Exit_hid_init         (* unable to open HIDAPI *)
| Exit_serial_alloc     (* unable to allocate serial number buffer *)
| Exit_not_found        (* target_vid == 0 && target_pid == 0 *)
| Exit_bdata_alloc      (* unable to allocate memory *)
| Exit_open_path        (* unable to open CMSIS-DAP device *)
| Exit_buffer_alloc     (* cmsis_dap_hid_alloc failed *)
| Exit_ok.

Definition exit_code (e : open_exit) : Z :=
  match e with
  | Exit_ok => ERROR_OK
  | _ => ERROR_FAIL
  end.

Definition cmsis_dap_hid_open (h : host) (dap : cmsis_dap) (ids : usb_ids)
    (serial : option string) (w : world) : result (open_exit * cmsis_dap * world) :=
  let (init, w) := hid_init h w in
  if negb (init =? 0) then Ok (Exit_hid_init, dap, w)
  else
    let (devs, w) := hid_enumerate h w in
    do scanned <- scan_devices h ids serial devs w;
    match scanned with
    | (Scan_return_fail, w) => Ok (Exit_serial_alloc, dap, w)
    | (Scan_left cur_dev, w) =>
        let target_vid := match cur_dev with Some d => vendor_id d | None => 0 end in
        let target_pid := match cur_dev with Some d => product_id d | None => 0 end in
        if (target_vid =? 0) && (target_pid =? 0) then
          Ok (Exit_not_found, dap, hid_free_enumeration w)
        else
          let (mem, w) := malloc h sizeof_backend_data w in
          match mem with
          | None => Ok (Exit_bdata_alloc, set_bdata dap None, w)
          | Some _ =>
              let dap := set_bdata dap (Some {| dev_handle := None |}) in
              do d <- deref cur_dev;
              let (dev, w) := hid_open_path h (path d) w in
              let w := hid_free_enumeration w in
              match dev with
              | None => Ok (Exit_open_path, dap, w)
              | Some _ =>
                  let packet_size := open_packet_size target_vid target_pid in
                  let dap := set_bdata dap (Some {| dev_handle := dev |}) in
                  let '(retval, dap, w) := cmsis_dap_hid_alloc h dap packet_size w in
                  if negb (retval =? ERROR_OK) then
                    do closed <- cmsis_dap_hid_close dap w;
                    Ok (Exit_buffer_alloc, fst closed, snd closed)
                  else
                    let dap := set_views dap (ptr_add (packet_buffer_ptr dap) REPORT_ID_SIZE)
                                         (packet_buffer_ptr dap) in
                    Ok (Exit_ok, dap, w)
              end
          end
    end.

End Driver.
Export Driver.

(** ** The backend interface *)

Module Backend.

(** [struct cmsis_dap_backend] of [cmsis_dap.h]: the operations a transport
    offers to the protocol engine. *)
Record cmsis_dap_backend : Type := {
  name : string;
  open : host -> cmsis_dap -> usb_ids -> option string -> world
         -> result (open_exit * cmsis_dap * world);
  close : cmsis_dap -> world -> result (cmsis_dap * world);
  read : host -> cmsis_dap -> Z -> cmsis_dap_blocking -> world
         -> result (Z * cmsis_dap * world);
  write : host -> cmsis_dap -> Z -> Z -> world -> result (Z * cmsis_dap * world);
  packet_buffer_alloc : host -> cmsis_dap -> Z -> world -> Z * cmsis_dap * world;
  packet_buffer_free : cmsis_dap -> world -> cmsis_dap * world;
  cancel_all : cmsis_dap -> world -> cmsis_dap * world
}.

End Backend.

Definition cmsis_dap_hid_backend : Backend.cmsis_dap_backend :=
  {| Backend.name := "hid";
     Backend.open := cmsis_dap_hid_open;
     Backend.close := cmsis_dap_hid_close;
     Backend.read := cmsis_dap_hid_read;
     Backend.write := cmsis_dap_hid_write;
     Backend.packet_buffer_alloc := cmsis_dap_hid_alloc;
     Backend.packet_buffer_free := cmsis_dap_hid_free;
     Backend.cancel_all := cmsis_dap_hid_cancel_all |}.

(** ** Sample hosts, devices and sessions *)

Module Samples.

Definition idle_world : world :=
  {| hid_ready := false; enums_live := 0%nat; handles := [];
     next_handle := 0%nat; n_malloc := 0%nat; heap_blocks := 0%nat;
     hid_log := [] |}.

(** The session as [cmsis_dap_open] of [cmsis_dap.c] hands it over: zeroed. *)
Definition blank_dap : cmsis_dap :=
  {| bdata := None; packet_size := 0; packet_usable_size := 0;
     packet_buffer_size := 0; packet_buffer := None;
     command := None; response := None |}.

(** [mbstowcs] in the "C" locale: bytes above 127 are invalid. *)
Definition c_locale (s : string) : option wstring :=
  if forallb (fun c => Nat.ltb (nat_of_ascii c) 128) (list_ascii_of_string s)
  then Some (wide_of_string s) else None.

Definition sample_host (devs : list hid_device_info) (mem : nat -> bool) : host :=
  {| hid_init_ret := 0;
     hid_devices := devs;
     hid_can_open := fun _ => true;
     malloc_ok := mem;
     heap_garbage := fun i => 0xa5;
     mbstowcs := c_locale;
     hid_read_answer := fun _ len _ => (0, []);
     hid_write_answer := fun _ data => Z.of_nat (List.length data) |}.

Definition always : nat -> bool := fun _ => true.
Definition all_but (k : nat) : nat -> bool := fun i => negb (Nat.eqb i k).

Definition atmel_ice : hid_device_info :=
  {| path := "/dev/hidraw0"; vendor_id := 0x03eb; product_id := 0x2141;
     serial_number := Some (wide_of_string "J41800012345");
     product_string := Some (wide_of_string "Atmel-ICE CMSIS-DAP");
     interface_number := 0 |}.

Definition daplink : hid_device_info :=
  {| path := "/dev/hidraw1"; vendor_id := 0x0d28; product_id := 0x0204;
     serial_number := Some (wide_of_string "0240000034544e45");
     product_string := Some (wide_of_string "DAPLink CMSIS-DAP");
     interface_number := 3 |}.

Definition keyboard : hid_device_info :=
  {| path := "/dev/hidraw2"; vendor_id := 0x046d; product_id := 0xc31c;
     serial_number := None;
     product_string := Some (wide_of_string "USB Keyboard");
     interface_number := 0 |}.

Definition lpc_link2 (iface : Z) : hid_device_info :=
  {| path := "/dev/hidraw3"; vendor_id := 0x1fc9; product_id := 0x0090;
     serial_number := Some (wide_of_string "A000000001");
     product_string := Some (wide_of_string "LPC-LINK2 CMSIS-DAP V5.224");
     interface_number := iface |}.

Definition daplink_serial : string := "0240000034544e45".

(** Hosts with a few devices attached and memory to spare. *)
Definition bench_host : host :=
  sample_host [keyboard; lpc_link2 1; atmel_ice; daplink; lpc_link2 0] always.

Definition lpc_host : host := sample_host [lpc_link2 1; daplink] always.

Definition daplink_host : host := sample_host [daplink] always.

(** A host on which the first allocation fails. *)
Definition exhausted_host : host := sample_host [atmel_ice] (all_but 0).

(** A serial in Latin-1, with a byte above 127. *)
Definition latin1_serial : string := String (ascii_of_nat 233) "t01".

(** A host on which the second allocation fails. *)
Definition starved_host : host :=
  sample_host [keyboard; atmel_ice; daplink] (all_but 1).

(** A session after [cmsis_dap_hid_alloc] of 64 bytes on handle 0, with a
    command of four bytes in place. *)
Definition session64 : cmsis_dap :=
  {| bdata := Some {| dev_handle := Some 0%nat |};
     packet_size := 64; packet_usable_size := 64; packet_buffer_size := 65;
     packet_buffer := Some (0xa5 :: [0x00; 0xfe; 0x01; 0x02] ++ repeat 0xa5 60);
     command := Some 1; response := Some 0 |}.

Definition open_world : world :=
  {| hid_ready := true; enums_live := 0%nat; handles := [0%nat];
     next_handle := 1%nat; n_malloc := 2%nat; heap_blocks := 2%nat;
     hid_log := [] |}.

(** A transport that answers every transfer with [r]. *)
Definition answering_host (r : Z) : host :=
  {| hid_init_ret := 0;
     hid_devices := [];
     hid_can_open := fun _ => true;
     malloc_ok := always;
     heap_garbage := fun i => 0xa5;
     mbstowcs := c_locale;
     hid_read_answer := fun _ len _ => (r, repeat 0x11 (Z.to_nat r));
     hid_write_answer := fun _ data => r |}.

End Samples.
Export Samples.

(** ** The vocabulary of the specification *)

Module Spec.

(** The (vendor id, product id) pairs of a filter: the entries in front of
    the first pair of zeros. *)
Fixpoint filter_pairs (ids : usb_ids) : list (Z * Z) :=
  match ids with
  | [] => []
  | (v, p) :: rest =>
      if (v =? 0) && (p =? 0) then [] else (v, p) :: filter_pairs rest
  end.

(** The product string exists and contains "CMSIS-DAP". *)
Definition has_marker (d : hid_device_info) : Prop :=
  exists ps before after,
    product_string d = Some ps /\ ps = before ++ cmsis_dap_marker ++ after.

(** (vendor id, product id) equals some pair of the filter. *)
Definition listed (ids : usb_ids) (d : hid_device_info) : Prop :=
  In (vendor_id d, product_id d) (filter_pairs ids).

(** The requested serial, converted, is the serial of the device. *)
Definition serial_equal (h : host) (serial : option string) (d : hid_device_info) : Prop :=
  match serial with
  | None => True
  | Some s => exists ws, mbstowcs h s = Some ws /\ serial_number d = Some ws
  end.

(** The composite adapter on another interface than 0. *)
Definition composite_elsewhere (d : hid_device_info) : Prop :=
  vendor_id d = 0x1fc9 /\ product_id d = 0x0090 /\ interface_number d <> 0.

(** The predicate of the matcher as the property of the first claim words
    it: marker for the empty filter, listed pair otherwise, and the serial. *)
Definition stated_predicate (h : host) (ids : usb_ids) (serial : option string)
    (d : hid_device_info) : Prop :=
  (match filter_pairs ids with
   | [] => has_marker d
   | _ :: _ => listed ids d
   end)
  /\ serial_equal h serial d.

(** The predicate the scan decides: the filter counts as empty when its
    first vendor id is 0, and the composite adapter is taken on interface 0
    only. *)
Definition active_predicate (h : host) (ids : usb_ids) (serial : option string)
    (d : hid_device_info) : Prop :=
  (if first_vid_is_zero ids then has_marker d else listed ids d)
  /\ ~ composite_elsewhere d
  /\ serial_equal h serial d.

(** The scan's decision on one device, as a boolean: [found], and the
    [wcscmp] of the serials when one was requested. *)
Definition taken (h : host) (ids : usb_ids) (serial : option string)
    (d : hid_device_info) : bool :=
  device_found ids d
  && match serial with
     | None => true
     | Some s =>
         match mbstowcs h s, serial_number d with
         | Some ws, Some ds => wcscmp ws ds =? 0
         | _, _ => false
         end
     end.

(** The conversion of the requested serial succeeds, the result fits a
    [size_t] count, and no allocation from this point on fails. *)
Definition serial_ready (h : host) (serial : option string) (w : world) : Prop :=
  match serial with
  | None => True
  | Some s =>
      (exists ws, mbstowcs h s = Some ws /\ Z.of_nat (List.length ws) < SIZE_MAX)
      /\ forall k, (n_malloc w <= k)%nat -> malloc_ok h k = true
  end.

(** The entries of the quirk table other than the sentinel. *)
Definition quirk_entries : list cmsis_dap_report_size :=
  filter (fun e => negb ((vid e =? 0) && (pid e =? 0))) report_size_quirks.

(** A session whose packet buffer is allocated. *)
Definition allocated (dap : cmsis_dap) : Prop :=
  exists buf,
    packet_buffer dap = Some buf
    /\ Z.of_nat (List.length buf) = packet_buffer_size dap
    /\ packet_buffer_size dap = packet_size dap + REPORT_ID_SIZE
    /\ 0 <= packet_size dap
    /\ packet_buffer_size dap <= UINT_MAX
    /\ command dap = Some REPORT_ID_SIZE
    /\ response dap = Some 0.

(** A session that holds the open handle [dev]. *)
Definition connected (dap : cmsis_dap) (dev : nat) : Prop :=
  bdata dap = Some {| dev_handle := Some dev |}.

(** The report [cmsis_dap_hid_write] hands to the transport for a buffer
    [buf]: report id 0, the [txlen] command bytes, zeros up to the end. *)
Definition frame_of (buf : list Z) (packet_size txlen : Z) : list Z :=
  0 :: firstn (Z.to_nat txlen) (skipn 1 buf)
    ++ repeat 0 (Z.to_nat (packet_size - txlen)).

(** The C return value for the answer of the transport to a write. *)
Definition write_return (answer : Z) : Z :=
  if answer =? -1 then ERROR_FAIL else answer.

(** The world [w] after [k] calls of [malloc] in all, each block freed again. *)
Definition with_mallocs (w : world) (k : nat) : world :=
  {| hid_ready := hid_ready w;
     enums_live := enums_live w; handles := handles w;
     next_handle := next_handle w; n_malloc := k;
     heap_blocks := heap_blocks w; hid_log := hid_log w |}.

(** The operations of a session between the allocation of its buffer and
    the release, called through the backend, and a run of them in sequence. *)
Inductive session_op : Type :=
| Op_read (transfer_timeout_ms : Z) (blocking : cmsis_dap_blocking)
| Op_write (txlen timeout_ms : Z)
| Op_cancel_all.

Definition run_op (h : host) (op : session_op) (dap : cmsis_dap) (w : world)
    : result (cmsis_dap * world) :=
  let backend := cmsis_dap_hid_backend in
  match op with
  | Op_read t b =>
      do r <- Backend.read backend h dap t b w; Ok (snd (fst r), snd r)
  | Op_write n t =>
      do r <- Backend.write backend h dap n t w; Ok (snd (fst r), snd r)
  | Op_cancel_all => Ok (Backend.cancel_all backend dap w)
  end.

Fixpoint run_ops (h : host) (ops : list session_op) (dap : cmsis_dap) (w : world)
    : result (cmsis_dap * world) :=
  match ops with
  | [] => Ok (dap, w)
  | op :: ops' => do s <- run_op h op dap w; run_ops h ops' (fst s) (snd s)
  end.

(** The payload length of every write of the run is within the packet. *)
Definition writes_within (packet_size : Z) (ops : list session_op) : Prop :=
  Forall (fun op => match op with
                    | Op_write n _ => 0 <= n <= packet_size
                    | _ => True
                    end) ops.

(** The world in which the scan of [cmsis_dap_hid_open] starts: after
    [hid_init] and [hid_enumerate]. *)
Definition scan_start (h : host) (w : world) : world :=
  snd (hid_enumerate h (snd (hid_init h w))).

(** HIDAPI reports every failure of a transfer as -1. *)
Definition hidapi_result (r : Z) : Prop := -1 <= r.

End Spec.
Export Spec.

(** ** Further vocabulary: the life of a session *)

Module Lifecycle.

(** Every open handle was handed out by an earlier [hid_open_path]. *)
Definition fresh_handles (w : world) : Prop :=
  forall x, In x (handles w) -> (x < next_handle w)%nat.

(** No allocation from this point on fails. *)
Definition memory_to_spare (h : host) (w : world) : Prop :=
  forall k, (n_malloc w <= k)%nat -> malloc_ok h k = true.

(** The sizes and the two views of a session are those of another. *)
Definition same_views (a b : cmsis_dap) : Prop :=
  packet_size a = packet_size b
  /\ packet_usable_size a = packet_usable_size b
  /\ packet_buffer_size a = packet_buffer_size b
  /\ command a = command b
  /\ response a = response b.

(** The handles of [l] other than [dev]. *)
Definition handles_without (dev : nat) (l : list nat) : list nat :=
  filter (fun x => negb (Nat.eqb x dev)) l.

(** A host whose transport keeps to the contract of HIDAPI: a transfer
    fails with -1 and with no other negative result. *)
Definition hidapi_host (h : host) : Prop :=
  (forall k len ms, hidapi_result (fst (hid_read_answer h k len ms)))
  /\ (forall k data, hidapi_result (hid_write_answer h k data)).

(** The number of transfers a run of operations asks of the transport. *)
Definition transfers (ops : list session_op) : nat :=
  List.length (filter (fun op => match op with
                                 | Op_cancel_all => false
                                 | _ => true
                                 end) ops).

(** A probe that reports vendor id 0 and product id 0. *)
Definition zero_ids_probe : hid_device_info :=
  {| path := "/dev/hidraw4"; vendor_id := 0; product_id := 0;
     serial_number := None;
     product_string := Some (wide_of_string "Generic CMSIS-DAP");
     interface_number := 0 |}.

(** A probe without a serial number. *)
Definition bare_probe : hid_device_info :=
  {| path := "/dev/hidraw5"; vendor_id := 0xc251; product_id := 0xf001;
     serial_number := None;
     product_string := Some (wide_of_string "CMSIS-DAP");
     interface_number := 0 |}.

Definition zero_ids_host : host := sample_host [keyboard; zero_ids_probe; daplink] always.

Definition bare_host : host := sample_host [keyboard; bare_probe] (fun _ => false).

(** A host on which no device node can be opened. *)
Definition locked_host : host :=
  {| hid_init_ret := 0;
     hid_devices := [keyboard; atmel_ice];
     hid_can_open := fun _ => false;
     malloc_ok := always;
     heap_garbage := fun i => 0xa5;
     mbstowcs := c_locale;
     hid_read_answer := fun _ len _ => (0, []);
     hid_write_answer := fun _ data => Z.of_nat (List.length data) |}.

(** A host on which HIDAPI does not initialise. *)
Definition no_hid_host : host :=
  {| hid_init_ret := -1;
     hid_devices := [atmel_ice];
     hid_can_open := fun _ => true;
     malloc_ok := always;
     heap_garbage := fun i => 0xa5;
     mbstowcs := c_locale;
     hid_read_answer := fun _ len _ => (0, []);
     hid_write_answer := fun _ data => Z.of_nat (List.length data) |}.

(** A world with two handles open and three blocks allocated. *)
Definition busy_world : world :=
  {| hid_ready := true; enums_live := 0%nat; handles := [1%nat; 0%nat];
     next_handle := 2%nat; n_malloc := 7%nat; heap_blocks := 3%nat;
     hid_log := [] |}.

(** A quirk table with a pair listed twice and an entry behind an entry
    without a vendor id. *)
Definition patched_quirks : list cmsis_dap_report_size :=
  [ quirk 0x03eb 0x2141 512;
    quirk 0x0d28 0x0204 64;
    quirk 0x03eb 0x2141 1024;
    quirk 0 0x1234 128;
    quirk 0x1fc9 0x0090 256 ].

End Lifecycle.
Export Lifecycle.

(** * Properties *)

(** ** The libc routines *)

Lemma starts_with_iff (needle hay : wstring) :
  starts_with needle hay = true <-> exists rest, hay = needle ++ rest.
Proof.
  revert hay; induction needle as [|n needle IH]; intros hay; simpl.
  - split; [intros _; now exists hay | reflexivity].
  - destruct hay as [|c hay].
    + split; [discriminate | intros [rest Hr]; discriminate].
    + rewrite andb_true_iff, Z.eqb_eq, IH. split.
      * intros [-> [rest ->]]. now exists rest.
      * intros [rest Hr]. injection Hr as -> ->. split; [reflexivity | now exists rest].
Qed.

Lemma wcsstr_iff (hay needle : wstring) :
  wcsstr hay needle <> None <->
  exists before after, hay = before ++ needle ++ after.
Proof.
  induction hay as [|c hay IH]; simpl.
  - destruct (starts_with needle []) eqn:E.
    + apply starts_with_iff in E as [rest Hr].
      split; [intros _; now exists [], rest | discriminate].
    + split; [congruence|]. intros [before [after Hb]].
      destruct before; [|discriminate]. simpl in Hb.
      assert (starts_with needle [] = true) by (apply starts_with_iff; now exists after).
      congruence.
  - destruct (starts_with needle (c :: hay)) eqn:E.
    + apply starts_with_iff in E as [rest Hr].
      split; [intros _; now exists [], rest | discriminate].
    + rewrite IH. split.
      * intros [before [after ->]]. now exists (c :: before), after.
      * intros [before [after Hb]]. destruct before as [|b before].
        -- simpl in Hb.
           assert (starts_with needle (c :: hay) = true)
             by (apply starts_with_iff; now exists after).
           congruence.
        -- injection Hb as _ ->. now exists before, after.
Qed.

Lemma wcscmp_iff (a b : wstring) : wcscmp a b = 0 <-> a = b.
Proof.
  revert b; induction a as [|x a IH]; intros [|y b]; simpl;
    try (split; [discriminate | discriminate]); try tauto.
  destruct (Z.ltb_spec x y); [split; [discriminate | intros [= -> _]; lia]|].
  destruct (Z.ltb_spec y x); [split; [discriminate | intros [= -> _]; lia]|].
  rewrite IH. split; [intros ->; f_equal; lia | now intros [= _ ->]].
Qed.

(** ** One device against the filter *)

Lemma vid_pid_loop_iff (ids : usb_ids) (d : hid_device_info) (found : bool) :
  vid_pid_loop ids d found = true <->
  found = true \/ In (vendor_id d, product_id d) (filter_pairs ids).
Proof.
  revert found; induction ids as [|[v p] ids IH]; intros found; simpl.
  - tauto.
  - destruct ((v =? 0) && (p =? 0)); simpl; [tauto|].
    rewrite IH.
    destruct ((v =? vendor_id d) && (p =? product_id d)) eqn:E.
    + apply andb_true_iff in E as [->%Z.eqb_eq ->%Z.eqb_eq]. tauto.
    + apply andb_false_iff in E.
      assert ((v, p) <> (vendor_id d, product_id d))
        by (intros [= -> ->]; destruct E as [E|E]; apply Z.eqb_neq in E; auto).
      tauto.
Qed.

Lemma found_by_filter_iff (ids : usb_ids) (d : hid_device_info) :
  found_by_filter ids d = true <->
  if first_vid_is_zero ids then has_marker d else listed ids d.
Proof.
  unfold found_by_filter, has_marker, listed.
  destruct (first_vid_is_zero ids).
  - destruct (product_string d) as [ps|].
    + pose proof (wcsstr_iff ps cmsis_dap_marker) as W.
      destruct (wcsstr ps cmsis_dap_marker).
      * split; [intros _|reflexivity].
        destruct W as [W _]. destruct W as [b [a Hb]]; [discriminate|].
        now exists ps, b, a.
      * split; [discriminate|]. intros [ps' [b [a [[= <-] Hb]]]].
        destruct W as [_ W]. exfalso. apply W; [|reflexivity]. now exists b, a.
    + split; [discriminate|]. intros [ps' [b [a [Hd _]]]]. discriminate.
  - rewrite vid_pid_loop_iff. intuition discriminate.
Qed.

Lemma lpc_link2_iff (d : hid_device_info) :
  is_lpc_link2_other_interface d = true <-> composite_elsewhere d.
Proof.
  unfold is_lpc_link2_other_interface, composite_elsewhere.
  rewrite !andb_true_iff, negb_true_iff, !Z.eqb_eq, Z.eqb_neq. tauto.
Qed.

Lemma device_found_iff (ids : usb_ids) (d : hid_device_info) :
  device_found ids d = true <->
  (if first_vid_is_zero ids then has_marker d else listed ids d)
  /\ ~ composite_elsewhere d.
Proof.
  unfold device_found. rewrite <- found_by_filter_iff, <- lpc_link2_iff.
  destruct (is_lpc_link2_other_interface d); intuition congruence.
Qed.

(** ** The scan of the enumeration *)

Lemma with_mallocs_same (w : world) : with_mallocs w (n_malloc w) = w.
Proof. now destruct w. Qed.

Lemma serial_ready_later (h : host) (serial : option string) (w : world) (k : nat) :
  serial_ready h serial w -> (n_malloc w <= k)%nat ->
  serial_ready h serial (with_mallocs w k).
Proof.
  destruct serial as [s|]; simpl; [|trivial].
  intros [Hc Hm] Hk. split; [exact Hc|]. intros j Hj. apply Hm. lia.
Qed.

Lemma serial_buffer_length (n : nat) :
  Z.of_nat n < SIZE_MAX -> to_size_t (Z.of_nat n + 1) = Z.of_nat n + 1.
Proof.
  intros Hn. unfold to_size_t. apply Z.mod_small. unfold SIZE_MAX in *. lia.
Qed.

(** One turn of the loop: the device at [cur_dev] is taken, with the scan
    over, exactly when it satisfies the active predicate; otherwise the scan
    goes on with the next device.  Either way the world differs by the calls
    of [malloc] made for the serial only. *)
Lemma scan_step (h : host) (ids : usb_ids) (serial : option string)
    (d : hid_device_info) (w : world) :
  serial_ready h serial w ->
  exists k, (n_malloc w <= k)%nat /\
    ((active_predicate h ids serial d /\
      forall next, scan_devices h ids serial (d :: next) w
                   = Ok (Scan_left (Some d), with_mallocs w k))
     \/
     (~ active_predicate h ids serial d /\
      forall next, scan_devices h ids serial (d :: next) w
                   = scan_devices h ids serial next (with_mallocs w k))).
Proof.
  intros Hready. unfold active_predicate.
  destruct (device_found ids d) eqn:F.
  - pose proof (proj1 (device_found_iff ids d) F) as [Hf Hc].
    destruct serial as [s|].
    + destruct Hready as [[ws [Hconv Hlen]] Hmem].
      destruct (serial_number d) as [ds|] eqn:Sn.
      * exists (S (n_malloc w)). split; [lia|].
        assert (Hscan : forall next,
          scan_devices h ids (Some s) (d :: next) w =
          if wcscmp ws ds =? 0
          then Ok (Scan_left (Some d), with_mallocs w (S (n_malloc w)))
          else scan_devices h ids (Some s) next (with_mallocs w (S (n_malloc w)))).
        { intros next. simpl. rewrite F, Sn. unfold malloc.
          rewrite (Hmem (n_malloc w)) by lia.
          unfold wserial_string, mbstowcs_ret. rewrite Hconv.
          rewrite serial_buffer_length by exact Hlen.
          replace (Z.of_nat (Datatypes.length ws) <? Z.of_nat (Datatypes.length ws) + 1)
            with true by (symmetry; apply Z.ltb_lt; lia).
          simpl. destruct (wcscmp ws ds =? 0); reflexivity. }
        destruct (wcscmp ws ds =? 0) eqn:C.
        -- left. split; [|exact Hscan].
           apply Z.eqb_eq, wcscmp_iff in C. subst ds.
           repeat split; try assumption. simpl. now exists ws.
        -- right. split; [|exact Hscan].
           intros [_ [_ [ws' [Hconv' Sn']]]].
           assert (ws' = ws) by congruence. subst ws'.
           assert (ds = ws) by congruence. subst ds.
           apply Z.eqb_neq in C. apply C. now apply wcscmp_iff.
      * exists (n_malloc w). split; [lia|]. right. rewrite with_mallocs_same. split.
        -- intros [_ [_ [ws' [_ Sn']]]]. congruence.
        -- intros next. simpl. now rewrite F, Sn.
    + exists (n_malloc w). split; [lia|]. left. rewrite with_mallocs_same. split.
      * repeat split; assumption.
      * intros next. simpl. now rewrite F.
  - exists (n_malloc w). split; [lia|]. right. rewrite with_mallocs_same. split.
    + intros [Hf [Hc _]].
      assert (device_found ids d = true) by (apply device_found_iff; tauto).
      congruence.
    + intros next. simpl. now rewrite F.
Qed.

(** The scan passes over devices that do not satisfy the predicate. *)
Lemma scan_skips (h : host) (ids : usb_ids) (serial : option string)
    (skipped : list hid_device_info) :
  forall w, serial_ready h serial w ->
  (forall x, In x skipped -> ~ active_predicate h ids serial x) ->
  exists k, (n_malloc w <= k)%nat /\
    forall rest, scan_devices h ids serial (skipped ++ rest) w
                 = scan_devices h ids serial rest (with_mallocs w k).
Proof.
  induction skipped as [|x skipped IH]; intros w Hready Hno.
  - exists (n_malloc w). split; [lia|]. intros rest. now rewrite with_mallocs_same.
  - destruct (scan_step h ids serial x w Hready) as [k [Hk [[Hact _]|[_ Hstep]]]].
    + exfalso. apply (Hno x); [now left | exact Hact].
    + destruct (IH (with_mallocs w k)) as [k' [Hk' Hrest]].
      * now apply serial_ready_later.
      * intros y Hy. apply Hno. now right.
      * exists k'. split; [simpl in Hk'; lia|]. intros rest.
        rewrite <- app_comm_cons, Hstep, Hrest. reflexivity.
Qed.

(** A device the scan stops at is one of the enumeration and was found by
    the filter. *)
Lemma scan_selects_found (h : host) (ids : usb_ids) (serial : option string)
    (devs : list hid_device_info) :
  forall w d w',
  scan_devices h ids serial devs w = Ok (Scan_left (Some d), w') ->
  In d devs /\ device_found ids d = true.
Proof.
  induction devs as [|x devs IH]; intros w d w' Hscan; simpl in Hscan.
  - discriminate.
  - destruct (device_found ids x) eqn:F.
    + destruct serial as [s|].
      * destruct (serial_number x) as [ds|].
        -- destruct (malloc h _ w) as [[blk|] w1]; [|discriminate].
           destruct (wserial_string h s _) as [ws|]; simpl in Hscan; [|discriminate].
           destruct (wcscmp ws ds =? 0).
           ++ injection Hscan as <- _. split; [now left | exact F].
           ++ apply IH in Hscan as [Hin Hf]. split; [now right | exact Hf].
        -- apply IH in Hscan as [Hin Hf]. split; [now right | exact Hf].
      * injection Hscan as <- _. split; [now left | exact F].
    + apply IH in Hscan as [Hin Hf]. split; [now right | exact Hf].
Qed.

Lemma taken_iff (h : host) (ids : usb_ids) (serial : option string)
    (d : hid_device_info) :
  taken h ids serial d = true <-> active_predicate h ids serial d.
Proof.
  unfold taken, active_predicate. rewrite andb_true_iff, device_found_iff.
  assert (Hs : match serial with
               | None => true
               | Some s =>
                   match mbstowcs h s, serial_number d with
                   | Some ws, Some ds => wcscmp ws ds =? 0
                   | _, _ => false
                   end
               end = true <-> serial_equal h serial d).
  { destruct serial as [s|]; simpl; [|tauto].
    destruct (mbstowcs h s) as [ws|].
    - destruct (serial_number d) as [ds|].
      + rewrite Z.eqb_eq, wcscmp_iff. split.
        * intros ->. now exists ds.
        * intros [ws' [[= <-] [= <-]]]. reflexivity.
      + split; [discriminate | intros [ws' [_ Hd]]; discriminate].
    - split; [discriminate | intros [ws' [Hd _]]; discriminate]. }
  tauto.
Qed.

Lemma not_taken_iff (h : host) (ids : usb_ids) (serial : option string)
    (d : hid_device_info) :
  taken h ids serial d = false <-> ~ active_predicate h ids serial d.
Proof.
  rewrite <- taken_iff. destruct (taken h ids serial d); intuition congruence.
Qed.

(** The first device of the enumeration that satisfies the active predicate
    is where the scan stops, whatever comes after it. *)
Lemma scan_first_active (h : host) (ids : usb_ids) (serial : option string)
    (w : world) (before : list hid_device_info) (d : hid_device_info) :
  serial_ready h serial w ->
  (forall x, In x before -> ~ active_predicate h ids serial x) ->
  active_predicate h ids serial d ->
  exists k, forall after,
    scan_devices h ids serial (before ++ d :: after) w
    = Ok (Scan_left (Some d), with_mallocs w k).
Proof.
  intros Hready Hno Hact.
  destruct (scan_skips h ids serial before w Hready Hno) as [k [Hk Hskip]].
  destruct (scan_step h ids serial d (with_mallocs w k)) as [k' [_ [[_ Hstop]|[Hn _]]]].
  - now apply serial_ready_later.
  - exists k'. intros after. rewrite Hskip, Hstop. reflexivity.
  - contradiction.
Qed.

(** With no device satisfying the active predicate the scan runs to the end
    of the list. *)
Lemma scan_none_active (h : host) (ids : usb_ids) (serial : option string)
    (w : world) (devs : list hid_device_info) :
  serial_ready h serial w ->
  (forall x, In x devs -> ~ active_predicate h ids serial x) ->
  exists k, scan_devices h ids serial devs w = Ok (Scan_left None, with_mallocs w k).
Proof.
  intros Hready Hno.
  destruct (scan_skips h ids serial devs w Hready Hno) as [k [_ Hskip]].
  exists k. rewrite <- (app_nil_r devs), Hskip. reflexivity.
Qed.

Lemma serial_ready_same_count (h : host) (serial : option string) (w w' : world) :
  n_malloc w' = n_malloc w -> serial_ready h serial w -> serial_ready h serial w'.
Proof.
  intros Hn. destruct serial as [s|]; simpl; [|trivial]. now rewrite Hn.
Qed.

(** ** The first claim: which device the open operation settles on *)

(** C1 (as amended).  For every enumeration and every filter, as long as the
    requested serial converts and its buffer can be allocated, the scan of
    [cmsis_dap_hid_open] leaves the loop at the first device, in enumeration
    order, that satisfies the active predicate: the product string contains
    "CMSIS-DAP" when the filter is empty (its first vendor id is 0), the
    (vendor id, product id) pair is one of the filter otherwise; the device
    is not the composite adapter 0x1fc9:0x0090 on an interface other than
    0; and the serial numbers are equal when a serial is requested.  What
    follows that device in the enumeration has no influence (the scan stops
    there).  When no device satisfies the predicate, open returns by the
    not-found exit with [ERROR_FAIL]. *)
Theorem open_selects_first_active_device
    (h : host) (ids : usb_ids) (serial : option string) (w : world) :
  serial_ready h serial w ->
  (forall before d,
     (forall x, In x before -> ~ active_predicate h ids serial x) ->
     active_predicate h ids serial d ->
     exists k, forall after,
       scan_devices h ids serial (before ++ d :: after) w
       = Ok (Scan_left (Some d), with_mallocs w k))
  /\
  (forall dap,
     hid_init_ret h = 0 ->
     (forall x, In x (hid_devices h) -> ~ active_predicate h ids serial x) ->
     exists w',
       cmsis_dap_hid_open h dap ids serial w = Ok (Exit_not_found, dap, w')
       /\ exit_code Exit_not_found = ERROR_FAIL
       /\ enums_live w' = enums_live w
       /\ handles w' = handles w).
Proof.
  intros Hready. split.
  - intros before d Hno Hact. now apply scan_first_active.
  - intros dap Hinit Hno.
    unfold cmsis_dap_hid_open, hid_init, hid_enumerate. rewrite Hinit. simpl.
    match goal with
    | |- context [scan_devices h ids serial (hid_devices h) ?w1] =>
        destruct (scan_none_active h ids serial w1 (hid_devices h)) as [k Hscan];
          [ apply (serial_ready_same_count h serial w); [reflexivity | exact Hready]
          | exact Hno
          | rewrite Hscan ]
    end.
    simpl. eexists. repeat split.
Qed.

Lemma open_selects_first_active_device_witness :
  serial_ready bench_host (Some daplink_serial) idle_world
  /\ (exists k, forall after,
        scan_devices bench_host [] (Some daplink_serial)
          ([keyboard; lpc_link2 1; atmel_ice] ++ daplink :: after) idle_world
        = Ok (Scan_left (Some daplink), with_mallocs idle_world k))
  /\ (exists w',
        cmsis_dap_hid_open bench_host blank_dap [(0x0d28, 0x0204)]
          (Some "J41800012345"%string) idle_world
        = Ok (Exit_not_found, blank_dap, w')).
Proof.
  assert (R : serial_ready bench_host (Some daplink_serial) idle_world).
  { split; [eexists; split; [reflexivity | reflexivity] | reflexivity]. }
  assert (R' : serial_ready bench_host (Some "J41800012345"%string) idle_world).
  { split; [eexists; split; [reflexivity | reflexivity] | reflexivity]. }
  split; [exact R|]. split.
  - apply (proj1 (open_selects_first_active_device
                    bench_host [] (Some daplink_serial) idle_world R)).
    + intros x [<-|[<-|[<-|[]]]]; apply not_taken_iff; reflexivity.
    + apply taken_iff. reflexivity.
  - destruct (proj2 (open_selects_first_active_device
                       bench_host [(0x0d28, 0x0204)] (Some "J41800012345"%string)
                       idle_world R') blank_dap eq_refl) as [w' [Hopen _]].
    + intros x [<-|[<-|[<-|[<-|[<-|[]]]]]]; apply not_taken_iff; reflexivity.
    + now exists w'.
Defined.

(** C1 as stated fails: with an empty filter and no serial, the composite
    adapter on interface 1 carries the marker in its product string and comes
    first in the enumeration, yet the scan passes over it and stops at the
    device after it. *)
Lemma stated_predicate_first_not_selected :
  stated_predicate lpc_host [] None (lpc_link2 1)
  /\ scan_devices lpc_host [] None ([] ++ lpc_link2 1 :: [daplink]) idle_world
     = Ok (Scan_left (Some daplink), idle_world)
  /\ daplink <> lpc_link2 1.
Proof.
  split; [|split].
  - split; [|exact I]. simpl.
    apply (proj1 (found_by_filter_iff [] (lpc_link2 1))). reflexivity.
  - reflexivity.
  - discriminate.
Qed.

(** A filter whose first vendor id is 0 is taken for the empty filter, also
    when a product id follows: with 0:0x0204 as its only pair the scan goes by
    the product string and stops at a device that is not listed. *)
Lemma filter_with_zero_first_vendor_taken_as_empty :
  filter_pairs [(0, 0x0204)] = [(0, 0x0204)]
  /\ ~ stated_predicate daplink_host [(0, 0x0204)] None daplink
  /\ scan_devices daplink_host [(0, 0x0204)] None [daplink] idle_world
     = Ok (Scan_left (Some daplink), idle_world).
Proof.
  split; [reflexivity|]. split; [|reflexivity].
  intros [[H|[]] _]. discriminate H.
Qed.

(** A device that satisfies the predicate is not selected when the buffer
    for the converted serial cannot be allocated: the scan ends with the
    error return. *)
Lemma scan_ends_when_serial_buffer_unavailable :
  stated_predicate exhausted_host [] (Some "J41800012345"%string) atmel_ice
  /\ scan_devices exhausted_host [] (Some "J41800012345"%string) [atmel_ice] idle_world
     = Ok (Scan_return_fail, with_mallocs idle_world 1).
Proof.
  split; [|reflexivity]. split.
  - simpl. apply (proj1 (found_by_filter_iff [] atmel_ice)). reflexivity.
  - simpl. eexists. split; reflexivity.
Qed.

(** ** The composite adapter *)

(** C5.  Whatever the host, the enumeration, the filter and the serial, a
    device at which the scan stops is not the adapter 0x1fc9:0x0090 on an
    interface other than 0, also when the filter lists that pair.  For the
    same adapter on interface 0 the exclusion changes nothing: [found] is
    what the filter decides, and the scan stops at it when it is the first
    device to satisfy the filter's predicate and the serial. *)
Theorem composite_adapter_only_on_interface_0 :
  (forall h ids serial devs w d w',
     scan_devices h ids serial devs w = Ok (Scan_left (Some d), w') ->
     vendor_id d = 0x1fc9 -> product_id d = 0x0090 ->
     interface_number d = 0)
  /\
  (forall ids d,
     vendor_id d = 0x1fc9 -> product_id d = 0x0090 -> interface_number d = 0 ->
     device_found ids d = found_by_filter ids d)
  /\
  (forall h ids serial w before d,
     serial_ready h serial w ->
     vendor_id d = 0x1fc9 -> product_id d = 0x0090 -> interface_number d = 0 ->
     (if first_vid_is_zero ids then has_marker d else listed ids d) ->
     serial_equal h serial d ->
     (forall x, In x before -> ~ active_predicate h ids serial x) ->
     exists k, forall after,
       scan_devices h ids serial (before ++ d :: after) w
       = Ok (Scan_left (Some d), with_mallocs w k)).
Proof.
  split; [|split].
  - intros h ids serial devs w d w' Hscan Hv Hp.
    apply scan_selects_found in Hscan as [_ Hf].
    apply device_found_iff in Hf as [_ Hc].
    destruct (Z.eq_dec (interface_number d) 0) as [E|E]; [exact E|].
    exfalso. apply Hc. repeat split; assumption.
  - intros ids d Hv Hp Hi. unfold device_found, is_lpc_link2_other_interface.
    rewrite Hi. simpl. now rewrite andb_false_r.
  - intros h ids serial w before d Hready Hv Hp Hi Hf Hs Hno.
    apply scan_first_active; [exact Hready | exact Hno |].
    repeat split; try assumption.
    intros [_ [_ Hne]]. contradiction.
Qed.

Lemma composite_adapter_only_on_interface_0_witness :
  scan_devices bench_host [(0x1fc9, 0x0090)] None
    [keyboard; lpc_link2 1; atmel_ice; daplink; lpc_link2 0] idle_world
  = Ok (Scan_left (Some (lpc_link2 0)), idle_world)
  /\ interface_number (lpc_link2 0) = 0
  /\ device_found [(0x1fc9, 0x0090)] (lpc_link2 0)
     = found_by_filter [(0x1fc9, 0x0090)] (lpc_link2 0)
  /\ exists k, forall after,
       scan_devices bench_host [(0x1fc9, 0x0090)] (Some "A000000001"%string)
         ([keyboard; lpc_link2 1] ++ lpc_link2 0 :: after) idle_world
       = Ok (Scan_left (Some (lpc_link2 0)), with_mallocs idle_world k).
Proof.
  destruct composite_adapter_only_on_interface_0 as [Never [Same Normal]].
  assert (Hscan : scan_devices bench_host [(0x1fc9, 0x0090)] None
            [keyboard; lpc_link2 1; atmel_ice; daplink; lpc_link2 0] idle_world
          = Ok (Scan_left (Some (lpc_link2 0)), idle_world)) by reflexivity.
  split; [exact Hscan|]. split; [|split].
  - apply (Never _ _ _ _ _ _ _ Hscan); reflexivity.
  - apply Same; reflexivity.
  - apply Normal.
    + split; [eexists; split; reflexivity | reflexivity].
    + reflexivity.
    + reflexivity.
    + reflexivity.
    + simpl. now left.
    + simpl. eexists. split; reflexivity.
    + intros x [<-|[<-|[]]]; apply not_taken_iff; reflexivity.
Defined.

(** ** The report size quirks *)

Lemma quirk_table_layout :
  report_size_quirks = quirk_entries ++ [quirk 0 0 0].
Proof. reflexivity. Qed.

(** The loop over entries with a vendor id, followed by an entry without:
    what follows that entry is never read. *)
Lemma quirk_loop_stops (entries after : list cmsis_dap_report_size)
    (stop : cmsis_dap_report_size) (tv tp : Z) :
  vid stop = 0 ->
  forall size,
  quirk_loop (entries ++ stop :: after) tv tp size
  = quirk_loop (entries ++ [stop]) tv tp size.
Proof.
  intros Hstop. induction entries as [|e entries IH]; intros size; simpl.
  - rewrite Hstop. reflexivity.
  - destruct (vid e =? 0); [reflexivity | apply IH].
Qed.

Lemma quirk_loop_absent (entries : list cmsis_dap_report_size) (tv tp : Z) :
  (forall e, In e entries -> ~ (vid e = tv /\ pid e = tp)) ->
  forall size,
  quirk_loop (entries ++ [quirk 0 0 0]) tv tp size = size.
Proof.
  induction entries as [|e entries IH]; intros Habs size; simpl.
  - reflexivity.
  - destruct (vid e =? 0); [reflexivity|].
    destruct ((vid e =? tv) && (pid e =? tp)) eqn:E.
    + apply andb_true_iff in E as [Ev Ep]. apply Z.eqb_eq in Ev, Ep.
      exfalso. apply (Habs e); [now left | now split].
    + apply IH. intros e' He'. apply Habs. now right.
Qed.

(** A successful open leaves in [packet_size] what the lookup yields for
    the device the scan stopped at. *)
Lemma open_ok_packet_size (h : host) (dap : cmsis_dap) (ids : usb_ids)
    (serial : option string) (w : world) (dap' : cmsis_dap) (w' : world) :
  cmsis_dap_hid_open h dap ids serial w = Ok (Exit_ok, dap', w') ->
  exists d,
    In d (hid_devices h)
    /\ packet_size dap' = open_packet_size (vendor_id d) (product_id d).
Proof.
  unfold cmsis_dap_hid_open, hid_init, hid_enumerate.
  destruct (negb (hid_init_ret h =? 0)); [discriminate|].
  destruct (scan_devices h ids serial (hid_devices h) _) as [[r w1]|] eqn:Hscan;
    cbn [bind]; [|discriminate].
  destruct r as [|cur_dev]; [discriminate|].
  destruct ((_ =? 0) && (_ =? 0)); [discriminate|].
  destruct (malloc h sizeof_backend_data w1) as [[mem|] w2]; [|discriminate].
  destruct cur_dev as [d|]; cbn [deref bind]; [|discriminate].
  apply scan_selects_found in Hscan as [Hin _].
  destruct (hid_open_path h (path d) w2) as [[dev|] w3]; [|discriminate].
  unfold cmsis_dap_hid_alloc.
  destruct (malloc h _ _) as [[buf|] w4]; cbn.
  - intros [= <- _]. exists d. split; [exact Hin | reflexivity].
  - unfold cmsis_dap_hid_close. cbn. discriminate.
Qed.

(** C2.  For every (vendor id, product id) pair of an entry of the quirk
    table the lookup done by open yields the report size of that entry; for
    every pair of no entry it yields the default of 64 bytes; the scan ends
    at the sentinel, whatever might follow it, and the sentinel is no match:
    the lookup of the pair of zeros yields 64, not the sentinel's 0.  The
    packet size of a session that open returns is the result of this lookup
    for the device opened. *)
Theorem quirk_lookup_report_size (target_vid target_pid : Z) :
  (forall e, In e quirk_entries ->
     vid e = target_vid -> pid e = target_pid ->
     open_packet_size target_vid target_pid = report_size e)
  /\
  ((forall e, In e quirk_entries -> ~ (vid e = target_vid /\ pid e = target_pid)) ->
     open_packet_size target_vid target_pid = 64)
  /\
  (forall after,
     quirk_loop (quirk_entries ++ quirk 0 0 0 :: after) target_vid target_pid 64
     = open_packet_size target_vid target_pid)
  /\ open_packet_size 0 0 = 64
  /\ (forall h dap ids serial w dap' w',
        cmsis_dap_hid_open h dap ids serial w = Ok (Exit_ok, dap', w') ->
        exists d,
          In d (hid_devices h)
          /\ packet_size dap' = open_packet_size (vendor_id d) (product_id d)).
Proof.
  split; [|split; [|split; [|split]]].
  - intros e He Hv Hp. subst target_vid target_pid.
    simpl in He.
    repeat (destruct He as [<-|He]; [reflexivity|]). destruct He.
  - intros Habs. unfold open_packet_size. rewrite quirk_table_layout.
    now apply quirk_loop_absent.
  - intros after. unfold open_packet_size. rewrite quirk_table_layout.
    now apply quirk_loop_stops.
  - reflexivity.
  - intros h dap ids serial w dap' w'. apply open_ok_packet_size.
Qed.

Lemma quirk_lookup_report_size_witness :
  In (quirk 0x03eb 0x2141 512) quirk_entries
  /\ open_packet_size 0x03eb 0x2141 = 512
  /\ (forall e, In e quirk_entries -> ~ (vid e = 0x0d28 /\ pid e = 0x0204))
  /\ open_packet_size 0x0d28 0x0204 = 64
  /\ (exists dap' w' d,
        cmsis_dap_hid_open bench_host blank_dap [] None idle_world
        = Ok (Exit_ok, dap', w')
        /\ In d (hid_devices bench_host)
        /\ packet_size dap' = open_packet_size (vendor_id d) (product_id d)).
Proof.
  assert (Hin : In (quirk 0x03eb 0x2141 512) quirk_entries) by (simpl; tauto).
  assert (Habs : forall e, In e quirk_entries -> ~ (vid e = 0x0d28 /\ pid e = 0x0204)).
  { intros e He [Hv _]. simpl in He.
    repeat (destruct He as [<-|He]; [discriminate Hv|]). destruct He. }
  split; [exact Hin|]. split; [|split; [exact Habs|split]].
  - exact (proj1 (quirk_lookup_report_size 0x03eb 0x2141) _ Hin eq_refl eq_refl).
  - exact (proj1 (proj2 (quirk_lookup_report_size 0x0d28 0x0204)) Habs).
  - destruct (cmsis_dap_hid_open bench_host blank_dap [] None idle_world)
      as [[[e dap'] w']|] eqn:Hopen; [|discriminate Hopen].
    assert (He : e = Exit_ok) by (vm_compute in Hopen; congruence). subst e.
    destruct (proj2 (proj2 (proj2 (proj2 (quirk_lookup_report_size 0 0))))
                bench_host blank_dap [] None idle_world dap' w' Hopen)
      as [d [Hd Hsize]].
    exists dap', w', d. repeat split; assumption.
Defined.

(** The scenario of the specification: an Atmel-ICE alone on the bus and an
    empty filter.  The scan selects it, the lookup yields 512 and the buffer
    is 513 bytes long. *)
Example atmel_ice_alone :
  exists dap' w',
    cmsis_dap_hid_open (sample_host [atmel_ice] always) blank_dap [] None idle_world
    = Ok (Exit_ok, dap', w')
    /\ packet_size dap' = 512
    /\ packet_buffer_size dap' = 513
    /\ handles w' = [0%nat]
    /\ enums_live w' = 0%nat.
Proof. eexists _, _. split; [reflexivity|]. repeat split. Qed.

(** ** Blocks of memory *)

Lemma to_uint_small (z : Z) : 0 <= z <= UINT_MAX -> to_uint z = z.
Proof. intros Hz. unfold to_uint. apply Z.mod_small. lia. Qed.

Lemma to_uint_range (z : Z) : 0 <= to_uint z <= UINT_MAX.
Proof.
  unfold to_uint. pose proof (Z.mod_pos_bound z (UINT_MAX + 1)).
  unfold UINT_MAX in *. lia.
Qed.

Lemma memset_inside (buf : list Z) (start c n : Z) :
  0 <= start -> 0 <= n -> start + n <= Z.of_nat (List.length buf) ->
  memset buf start c n
  = Ok (firstn (Z.to_nat start) buf ++ repeat c (Z.to_nat n)
        ++ skipn (Z.to_nat (start + n)) buf).
Proof.
  intros Hs Hn Hl. unfold memset.
  apply Z.leb_le in Hs, Hn, Hl. now rewrite Hs, Hn, Hl.
Qed.

Lemma memset_outside (buf : list Z) (start c n : Z) :
  start < 0 \/ n < 0 \/ Z.of_nat (List.length buf) < start + n ->
  memset buf start c n = Undefined.
Proof.
  intros H. unfold memset.
  destruct (0 <=? start) eqn:E1; [|reflexivity].
  destruct (0 <=? n) eqn:E2; [|reflexivity].
  destruct (start + n <=? Z.of_nat (List.length buf)) eqn:E3; [|reflexivity].
  apply Z.leb_le in E1, E2, E3. lia.
Qed.

Lemma memset_length (buf : list Z) (start c n : Z) (buf' : list Z) :
  memset buf start c n = Ok buf' -> List.length buf' = List.length buf.
Proof.
  unfold memset.
  destruct (0 <=? start) eqn:E1; [|discriminate].
  destruct (0 <=? n) eqn:E2; [|discriminate].
  destruct (start + n <=? Z.of_nat (List.length buf)) eqn:E3; [|discriminate].
  simpl. intros [= <-]. apply Z.leb_le in E1, E2, E3.
  rewrite !length_app, length_firstn, repeat_length, length_skipn. lia.
Qed.

Lemma load_bytes_all (buf : list Z) (n : Z) :
  n = Z.of_nat (List.length buf) -> load_bytes buf n = Ok buf.
Proof.
  intros ->. unfold load_bytes.
  replace (0 <=? Z.of_nat (List.length buf)) with true by (symmetry; apply Z.leb_le; lia).
  rewrite Z.leb_refl, Nat2Z.id, firstn_all. reflexivity.
Qed.

Lemma load_bytes_defined (buf : list Z) (n : Z) (data : list Z) :
  load_bytes buf n = Ok data -> 0 <= n <= Z.of_nat (List.length buf).
Proof.
  unfold load_bytes.
  destruct (0 <=? n) eqn:E1; [|discriminate].
  destruct (n <=? Z.of_nat (List.length buf)) eqn:E2; [|discriminate].
  intros _. apply Z.leb_le in E1, E2. auto.
Qed.

Lemma store_bytes_length (buf data : list Z) :
  (List.length data <= List.length buf)%nat ->
  List.length (store_bytes buf data) = List.length buf.
Proof.
  intros H. unfold store_bytes. rewrite length_app, length_skipn. lia.
Qed.

(** ** The report of a write *)

Lemma frame_of_length (buf : list Z) (ps txlen : Z) :
  Z.of_nat (List.length buf) = ps + 1 -> 0 <= txlen <= ps ->
  Z.of_nat (List.length (frame_of buf ps txlen)) = ps + 1.
Proof.
  intros Hl Ht. unfold frame_of. cbn [List.length].
  rewrite length_app, length_firstn, repeat_length, length_skipn. lia.
Qed.

Lemma frame_of_command (buf : list Z) (ps txlen : Z) (i : nat) :
  Z.of_nat (List.length buf) = ps + 1 -> 0 <= txlen <= ps ->
  (i < Z.to_nat txlen)%nat ->
  nth (S i) (frame_of buf ps txlen) 0 = nth (S i) buf 0.
Proof.
  intros Hl Ht Hi. unfold frame_of. cbn [nth].
  rewrite app_nth1 by (rewrite length_firstn, length_skipn; lia).
  rewrite nth_firstn.
  replace (i <? Z.to_nat txlen)%nat with true by (symmetry; apply Nat.ltb_lt; lia).
  rewrite nth_skipn. reflexivity.
Qed.

Lemma frame_of_padding (buf : list Z) (ps txlen : Z) (i : nat) :
  Z.of_nat (List.length buf) = ps + 1 -> 0 <= txlen <= ps ->
  (Z.to_nat txlen <= i)%nat ->
  nth (S i) (frame_of buf ps txlen) 0 = 0.
Proof.
  intros Hl Ht Hi. unfold frame_of. cbn [nth].
  rewrite app_nth2 by (rewrite length_firstn, length_skipn; lia).
  apply nth_repeat.
Qed.

(** The two stores of [cmsis_dap_hid_write] for a length within the packet. *)
Lemma write_fills_frame (b : Z) (rest : list Z) (ps txlen : Z) :
  Z.of_nat (List.length rest) = ps -> 0 <= txlen <= ps ->
  memset (0 :: rest) (1 + txlen) 0 (ps - txlen)
  = Ok (frame_of (b :: rest) ps txlen).
Proof.
  intros Hl Ht.
  rewrite memset_inside by (cbn [List.length]; lia).
  unfold frame_of.
  replace (Z.to_nat (1 + txlen)) with (S (Z.to_nat txlen)) by lia.
  replace (Z.to_nat (1 + txlen + (ps - txlen))) with (S (List.length rest)) by lia.
  cbn [firstn skipn].
  rewrite skipn_all, app_nil_r. reflexivity.
Qed.

Ltac open_session H :=
  let buf' := fresh "buf" in
  let Hb := fresh "Hbuf" in
  destruct H as [buf' (Hb & Hlen & Hsize & Hps & Hmax & Hcmd & Hresp)];
  unfold REPORT_ID_SIZE in *.

(** The first store, [dap->packet_buffer[0] = 0]. *)
Lemma write_report_id (b : Z) (rest : list Z) :
  memset (b :: rest) 0 0 1 = Ok (0 :: rest).
Proof. rewrite memset_inside by (cbn [List.length]; lia). reflexivity. Qed.

Lemma write_in_range (h : host) (dap : cmsis_dap) (dev : nat) (buf : list Z)
    (txlen timeout_ms : Z) (w : world) :
  allocated dap -> connected dap dev -> packet_buffer dap = Some buf ->
  0 <= txlen <= packet_size dap ->
  cmsis_dap_hid_write h dap txlen timeout_ms w
  = Ok (write_return (hid_write_answer h (List.length (hid_log w))
                        (frame_of buf (packet_size dap) txlen)),
        set_packet_buffer dap (Some (frame_of buf (packet_size dap) txlen)),
        log_call (Hid_write dev (frame_of buf (packet_size dap) txlen)) w).
Proof.
  intros Halloc Hconn Hbuf Ht. open_session Halloc.
  assert (buf0 = buf) by congruence. subst buf0.
  destruct buf as [|b rest]; [cbn [List.length] in Hlen; lia|].
  cbn [List.length] in Hlen.
  unfold cmsis_dap_hid_write, connected in *.
  rewrite Hbuf, Hcmd, Hconn. cbn [deref bind dev_handle].
  rewrite write_report_id. cbn [bind].
  unfold pad_length. rewrite to_uint_small by lia.
  rewrite (write_fills_frame b) by lia. cbn [bind].
  rewrite load_bytes_all
    by (rewrite frame_of_length; cbn [List.length]; lia).
  cbn [bind]. unfold hid_write, write_return.
  destruct (hid_write_answer h _ _ =? -1); reflexivity.
Qed.

(** A length of -1 starts the fill at the report id and runs it over the
    whole buffer. *)
Lemma write_whole_buffer (h : host) (dap : cmsis_dap) (dev : nat)
    (timeout_ms : Z) (w : world) :
  allocated dap -> connected dap dev ->
  exists r, cmsis_dap_hid_write h dap (-1) timeout_ms w = Ok r.
Proof.
  intros Halloc Hconn. open_session Halloc.
  destruct buf as [|b rest]; [cbn [List.length] in Hlen; lia|].
  cbn [List.length] in Hlen.
  unfold cmsis_dap_hid_write, connected in *.
  rewrite Hbuf, Hcmd, Hconn. cbn [deref bind dev_handle].
  rewrite write_report_id. cbn [bind].
  unfold pad_length. rewrite to_uint_small by lia.
  rewrite memset_inside by (cbn [List.length]; lia). cbn [bind].
  rewrite load_bytes_all.
  - cbn [bind]. unfold hid_write.
    match goal with |- context [if ?c then _ else _] => destruct c end;
      eexists; reflexivity.
  - rewrite !length_app, length_firstn, repeat_length, length_skipn.
    cbn [List.length]. lia.
Qed.

Lemma write_out_of_range (h : host) (dap : cmsis_dap) (dev : nat)
    (txlen timeout_ms : Z) (w : world) :
  allocated dap -> connected dap dev ->
  txlen < -1 \/ packet_size dap < txlen ->
  cmsis_dap_hid_write h dap txlen timeout_ms w = Undefined.
Proof.
  intros Halloc Hconn Hout. open_session Halloc.
  destruct buf as [|b rest]; [cbn [List.length] in Hlen; lia|].
  cbn [List.length] in Hlen.
  unfold cmsis_dap_hid_write, connected in *.
  rewrite Hbuf, Hcmd. cbn [deref bind].
  rewrite write_report_id. cbn [bind].
  rewrite memset_outside; [reflexivity|].
  pose proof (to_uint_range (packet_size dap - txlen)) as Hpad.
  unfold pad_length. cbn [List.length]. lia.
Qed.

(** ** Write *)

(** C3.  For a session with an allocated buffer and an open handle, and a
    payload length between 0 and [packet_size], write hands exactly one
    report to the transport: the whole packet buffer of [packet_buffer_size]
    bytes, whose byte 0 (the report id) is 0, whose next [txlen] bytes are
    the command as it stood, and whose remaining [packet_size - txlen] bytes,
    from [command + txlen] to the end, are 0.  The buffer is left holding
    that report.  The return value is the count the transport reports,
    unless the transport fails with -1. *)
Theorem write_sends_padded_frame (h : host) (dap : cmsis_dap) (dev : nat)
    (buf : list Z) (txlen timeout_ms : Z) (w : world) :
  allocated dap -> connected dap dev -> packet_buffer dap = Some buf ->
  0 <= txlen <= packet_size dap ->
  let frame := frame_of buf (packet_size dap) txlen in
  let answer := hid_write_answer h (List.length (hid_log w)) frame in
  cmsis_dap_hid_write h dap txlen timeout_ms w
  = Ok (write_return answer, set_packet_buffer dap (Some frame),
        log_call (Hid_write dev frame) w)
  /\ Z.of_nat (List.length frame) = packet_buffer_size dap
  /\ nth_error frame 0 = Some 0
  /\ (forall i, txlen <= i < packet_size dap ->
        nth_error frame (Z.to_nat (1 + i)) = Some 0)
  /\ (forall i, 0 <= i < txlen ->
        nth_error frame (Z.to_nat (1 + i)) = nth_error buf (Z.to_nat (1 + i)))
  /\ (answer <> -1 -> write_return answer = answer)
  /\ (answer = -1 -> write_return answer = ERROR_FAIL).
Proof.
  intros Halloc Hconn Hbuf Ht frame answer.
  split; [now apply write_in_range|].
  open_session Halloc.
  assert (buf0 = buf) by congruence. subst buf0.
  assert (Hfl : Z.of_nat (List.length frame) = packet_size dap + 1)
    by (apply frame_of_length; lia).
  split; [lia|]. split; [reflexivity|]. split; [|split; [|split]].
  - intros i Hi.
    replace (Z.to_nat (1 + i)) with (S (Z.to_nat i)) by lia.
    rewrite (nth_error_nth' frame 0) by lia.
    unfold frame. rewrite frame_of_padding by lia. reflexivity.
  - intros i Hi.
    replace (Z.to_nat (1 + i)) with (S (Z.to_nat i)) by lia.
    rewrite (nth_error_nth' frame 0) by lia.
    rewrite (nth_error_nth' buf 0) by lia.
    unfold frame. rewrite frame_of_command by lia. reflexivity.
  - intros Hne. unfold write_return.
    apply Z.eqb_neq in Hne. now rewrite Hne.
  - intros ->. reflexivity.
Qed.

Lemma session64_allocated : allocated session64.
Proof. eexists. repeat split; try reflexivity; discriminate. Defined.

Lemma write_sends_padded_frame_witness :
  allocated session64 /\ connected session64 0 /\ 0 <= 4 <= packet_size session64
  /\ cmsis_dap_hid_write (answering_host 65) session64 4 0 open_world
     = Ok (65,
           set_packet_buffer session64
             (Some (0 :: [0x00; 0xfe; 0x01; 0x02] ++ repeat 0 60)),
           log_call (Hid_write 0 (0 :: [0x00; 0xfe; 0x01; 0x02] ++ repeat 0 60))
             open_world).
Proof.
  assert (R : 0 <= 4 <= packet_size session64) by (split; discriminate).
  split; [exact session64_allocated|]. split; [reflexivity|].
  split; [exact R|].
  exact (proj1 (write_sends_padded_frame (answering_host 65) session64 0 _ 4 0
                  open_world session64_allocated eq_refl eq_refl R)).
Defined.

(** C10 (as amended).  For a session with an allocated buffer and an open
    handle the zero fill of write is inside the packet buffer exactly for
    -1 <= txlen <= packet_size.  For 0 <= txlen <= packet_size the pad
    length is [packet_size - txlen] and the fill leaves the command bytes in
    front of [command + txlen] as they were and zeroes the bytes from there
    to [command + packet_size - 1].  For txlen above [packet_size] the
    unsigned pad length wraps around to [2^32 - (txlen - packet_size)] and
    the write has no defined behaviour, as for txlen below -1.  No error is
    returned for a length out of range: the interface does not test it. *)
Theorem write_padding_bounds (h : host) (dap : cmsis_dap) (dev : nat)
    (buf : list Z) (txlen timeout_ms : Z) (w : world) :
  allocated dap -> connected dap dev -> packet_buffer dap = Some buf ->
  ((exists r, cmsis_dap_hid_write h dap txlen timeout_ms w = Ok r)
   <-> -1 <= txlen <= packet_size dap)
  /\
  (0 <= txlen <= packet_size dap ->
     pad_length dap txlen = packet_size dap - txlen
     /\ exists r buf' w',
          cmsis_dap_hid_write h dap txlen timeout_ms w
          = Ok (r, set_packet_buffer dap (Some buf'), w')
          /\ List.length buf' = List.length buf
          /\ (forall i, 0 <= i < txlen ->
                nth_error buf' (Z.to_nat (1 + i)) = nth_error buf (Z.to_nat (1 + i)))
          /\ (forall i, txlen <= i <= packet_size dap - 1 ->
                nth_error buf' (Z.to_nat (1 + i)) = Some 0))
  /\
  (packet_size dap < txlen ->
     (txlen <= 2147483647 ->
        pad_length dap txlen = UINT_MAX + 1 - (txlen - packet_size dap))
     /\ cmsis_dap_hid_write h dap txlen timeout_ms w = Undefined)
  /\
  (txlen < -1 -> cmsis_dap_hid_write h dap txlen timeout_ms w = Undefined).
Proof.
  intros Halloc Hconn Hbuf. split; [|split; [|split]].
  - split.
    + intros [r Hr].
      destruct (Z_le_gt_dec (-1) txlen) as [Hlo|Hlo];
        [destruct (Z_le_gt_dec txlen (packet_size dap)) as [Hhi|Hhi]|].
      * lia.
      * rewrite (write_out_of_range h dap dev) in Hr; [discriminate|assumption..|lia].
      * rewrite (write_out_of_range h dap dev) in Hr; [discriminate|assumption..|lia].
    + intros Hr. destruct (Z.eq_dec txlen (-1)) as [->|Hne].
      * now apply (write_whole_buffer h dap dev).
      * eexists. apply (write_in_range h dap dev buf); try assumption. lia.
  - intros Ht.
    pose proof (write_sends_frame_facts := write_in_range h dap dev buf txlen timeout_ms w
                  Halloc Hconn Hbuf Ht).
    open_session Halloc.
    assert (buf0 = buf) by congruence. subst buf0.
    split; [unfold pad_length; apply to_uint_small; lia|].
    eexists _, _, _. split; [exact write_sends_frame_facts|].
    assert (Hfl : Z.of_nat (List.length (frame_of buf (packet_size dap) txlen))
                  = packet_size dap + 1) by (apply frame_of_length; lia).
    split; [lia|]. split.
    * intros i Hi.
      replace (Z.to_nat (1 + i)) with (S (Z.to_nat i)) by lia.
      rewrite (nth_error_nth' (frame_of buf (packet_size dap) txlen) 0) by lia.
      rewrite (nth_error_nth' buf 0) by lia.
      rewrite frame_of_command by lia. reflexivity.
    * intros i Hi.
      replace (Z.to_nat (1 + i)) with (S (Z.to_nat i)) by lia.
      rewrite (nth_error_nth' (frame_of buf (packet_size dap) txlen) 0) by lia.
      rewrite frame_of_padding by lia. reflexivity.
  - intros Hhi. split.
    + intros Hint. open_session Halloc. unfold pad_length, to_uint.
      symmetry. apply (Z.mod_unique_pos _ _ (-1)). unfold UINT_MAX in *. lia.
      unfold UINT_MAX in *. lia.
    + apply (write_out_of_range h dap dev); try assumption. lia.
  - intros Hlo. apply (write_out_of_range h dap dev); try assumption. lia.
Qed.

Lemma write_padding_bounds_witness :
  allocated session64 /\ connected session64 0
  /\ ((exists r, cmsis_dap_hid_write (answering_host 65) session64 65 0 open_world = Ok r)
      <-> -1 <= 65 <= packet_size session64)
  /\ pad_length session64 65 = 4294967295
  /\ cmsis_dap_hid_write (answering_host 65) session64 65 0 open_world = Undefined
  /\ pad_length session64 4 = 60.
Proof.
  pose proof (write_padding_bounds (answering_host 65) session64 0 _ 65 0 open_world
                session64_allocated eq_refl eq_refl) as [Hiff [_ [Hhi _]]].
  pose proof (write_padding_bounds (answering_host 65) session64 0 _ 4 0 open_world
                session64_allocated eq_refl eq_refl) as [_ [Hin _]].
  split; [exact session64_allocated|]. split; [reflexivity|].
  split; [exact Hiff|].
  destruct Hhi as [Hpad Hundef]; [reflexivity|].
  split; [apply Hpad; discriminate|]. split; [exact Hundef|].
  apply Hin. split; discriminate.
Defined.

(** C10 as stated fails: at a payload length of -1, outside
    0 <= txlen <= packet_size, the fill starts at the report id and covers
    the 65 bytes of the packet buffer, inside the buffer; the write is
    defined and sends a report of zeros. *)
Lemma write_padding_inside_at_minus_one :
  allocated session64 /\ connected session64 0
  /\ ~ (0 <= -1 <= packet_size session64)
  /\ pad_length session64 (-1) = packet_buffer_size session64
  /\ cmsis_dap_hid_write (answering_host 65) session64 (-1) 0 open_world
     = Ok (65, set_packet_buffer session64 (Some (repeat 0 65)),
           log_call (Hid_write 0 (repeat 0 65)) open_world).
Proof.
  split; [exact session64_allocated|]. split; [reflexivity|].
  split; [intros [H _]; now apply H|]. split; reflexivity.
Qed.

(** ** Read *)

Lemma receive_fits (buf data : list Z) :
  (List.length data <= List.length buf)%nat ->
  receive (Some buf) data = Ok (Some (store_bytes buf data)).
Proof.
  intros Hl. destruct data as [|x data]; [reflexivity|].
  unfold receive. cbn [deref bind].
  replace (Nat.leb (List.length (x :: data)) (List.length buf)) with true
    by (symmetry; now apply Nat.leb_le).
  reflexivity.
Qed.

Lemma receive_length (buf data : list Z) (filled : option (list Z)) :
  receive (Some buf) data = Ok filled ->
  exists buf', filled = Some buf' /\ List.length buf' = List.length buf.
Proof.
  destruct data as [|x data]; cbn [receive deref bind].
  - intros [= <-]. now exists buf.
  - destruct (Nat.leb (List.length (x :: data)) (List.length buf)) eqn:E;
      [|discriminate].
    intros [= <-]. apply Nat.leb_le in E.
    eexists. split; [reflexivity|]. now apply store_bytes_length.
Qed.

Lemma read_returns (h : host) (dap : cmsis_dap) (dev : nat) (buf : list Z)
    (transfer_timeout_ms : Z) (blocking : cmsis_dap_blocking) (w : world) :
  connected dap dev -> packet_buffer dap = Some buf ->
  0 <= packet_buffer_size dap <= Z.of_nat (List.length buf) ->
  let wait_ms := read_wait_ms transfer_timeout_ms blocking in
  let answer := hid_read_answer h (List.length (hid_log w))
                  (packet_buffer_size dap) wait_ms in
  let received :=
    firstn (Z.to_nat (Z.min (fst answer) (packet_buffer_size dap))) (snd answer) in
  cmsis_dap_hid_read h dap transfer_timeout_ms blocking w
  = Ok (if fst answer =? 0 then ERROR_TIMEOUT_REACHED
        else if fst answer =? -1 then ERROR_FAIL
        else fst answer,
        set_packet_buffer dap (Some (store_bytes buf received)),
        log_call (Hid_read_timeout dev (packet_buffer_size dap) wait_ms) w).
Proof.
  intros Hconn Hbuf Hsize wait_ms answer received.
  unfold cmsis_dap_hid_read, connected in *.
  rewrite Hconn, Hbuf. cbn [deref bind dev_handle].
  unfold hid_read_timeout.
  fold wait_ms. fold answer. destruct answer as [retval data] eqn:E.
  cbn [fst snd] in *. fold received.
  rewrite receive_fits by (unfold received; rewrite length_firstn; lia).
  cbn [bind].
  destruct (retval =? 0); [reflexivity|]. destruct (retval =? -1); reflexivity.
Qed.

(** C4 (as amended).  For every timeout and blocking mode, read on a
    session that holds a handle and a buffer asks the transport once, for
    [packet_buffer_size] bytes, waiting 0 milliseconds in non-blocking mode
    and [transfer_timeout_ms] in blocking mode.  A transport result of 0 is
    returned as [ERROR_TIMEOUT_REACHED], which differs from [ERROR_FAIL];
    the failure sentinel -1 of the transport is returned as [ERROR_FAIL];
    every other result is returned as it is, a positive one as the number
    of bytes read and a negative one other than -1 alike.  On a transport
    that keeps to the contract of HIDAPI, whose only negative result is -1,
    every negative result is therefore returned as [ERROR_FAIL]. *)
Theorem read_translates_transport_result (h : host) (dap : cmsis_dap) (dev : nat)
    (buf : list Z) (transfer_timeout_ms : Z) (blocking : cmsis_dap_blocking)
    (w : world) :
  connected dap dev -> packet_buffer dap = Some buf ->
  0 <= packet_buffer_size dap <= Z.of_nat (List.length buf) ->
  read_wait_ms transfer_timeout_ms CMSIS_DAP_NON_BLOCKING = 0
  /\ read_wait_ms transfer_timeout_ms CMSIS_DAP_BLOCKING = transfer_timeout_ms
  /\ ERROR_TIMEOUT_REACHED <> ERROR_FAIL
  /\ exists retval dap' w',
       cmsis_dap_hid_read h dap transfer_timeout_ms blocking w = Ok (retval, dap', w')
       /\ hid_log w'
          = Hid_read_timeout dev (packet_buffer_size dap)
              (read_wait_ms transfer_timeout_ms blocking) :: hid_log w
       /\ let r := fst (hid_read_answer h (List.length (hid_log w))
                          (packet_buffer_size dap)
                          (read_wait_ms transfer_timeout_ms blocking)) in
          (r = 0 -> retval = ERROR_TIMEOUT_REACHED)
          /\ (r = -1 -> retval = ERROR_FAIL)
          /\ (r <> 0 -> r <> -1 -> retval = r)
          /\ (r < 0 -> hidapi_result r -> retval = ERROR_FAIL)
          /\ (0 < r -> retval = r).
Proof.
  intros Hconn Hbuf Hsize.
  split; [reflexivity|]. split; [reflexivity|]. split; [discriminate|].
  eexists _, _, _. split; [now apply (read_returns h dap dev buf)|].
  split; [reflexivity|]. cbn zeta.
  set (r := fst (hid_read_answer h _ _ _)). clearbody r.
  split; [|split; [|split; [|split]]].
  - intros ->. reflexivity.
  - intros ->. reflexivity.
  - intros Hz Hm.
    destruct (Z.eqb_spec r 0); [contradiction|].
    destruct (Z.eqb_spec r (-1)); [contradiction|]. reflexivity.
  - intros Hneg Hapi. unfold hidapi_result in Hapi.
    assert (r = -1) by lia. subst r. reflexivity.
  - intros Hpos.
    destruct (Z.eqb_spec r 0); [lia|]. destruct (Z.eqb_spec r (-1)); [lia|].
    reflexivity.
Qed.

Lemma read_translates_transport_result_witness :
  connected session64 0
  /\ cmsis_dap_hid_read (answering_host 0) session64 250 CMSIS_DAP_BLOCKING open_world
     = Ok (ERROR_TIMEOUT_REACHED, session64,
           log_call (Hid_read_timeout 0 65 250) open_world)
  /\ (exists dap' w',
        cmsis_dap_hid_read (answering_host (-1)) session64 250 CMSIS_DAP_NON_BLOCKING
          open_world = Ok (ERROR_FAIL, dap', w')
        /\ hid_log w' = [Hid_read_timeout 0 65 0])
  /\ (exists dap' w',
        cmsis_dap_hid_read (answering_host 3) session64 250 CMSIS_DAP_BLOCKING
          open_world = Ok (3, dap', w'))
  /\ (exists dap' w',
        cmsis_dap_hid_read (answering_host (-7)) session64 250 CMSIS_DAP_BLOCKING
          open_world = Ok (-7, dap', w')).
Proof.
  assert (Hsize : 0 <= packet_buffer_size session64
                  <= Z.of_nat (List.length (0xa5 :: [0x00; 0xfe; 0x01; 0x02] ++ repeat 0xa5 60)))
    by (split; discriminate).
  split; [reflexivity|]. split; [|split; [|split]].
  - destruct (read_translates_transport_result (answering_host 0) session64 0 _
                250 CMSIS_DAP_BLOCKING open_world eq_refl eq_refl Hsize)
      as (_ & _ & _ & retval & dap' & w' & Hread & _ & Hzero & _).
    rewrite (Hzero eq_refl) in Hread. rewrite Hread.
    vm_compute in Hread. injection Hread as <- <-. reflexivity.
  - destruct (read_translates_transport_result (answering_host (-1)) session64 0 _
                250 CMSIS_DAP_NON_BLOCKING open_world eq_refl eq_refl Hsize)
      as (_ & _ & _ & retval & dap' & w' & Hread & Hlog & _ & _ & _ & Hneg & _).
    exists dap', w'. split; [|exact Hlog].
    rewrite Hread. rewrite (Hneg eq_refl); [reflexivity|]. discriminate.
  - destruct (read_translates_transport_result (answering_host 3) session64 0 _
                250 CMSIS_DAP_BLOCKING open_world eq_refl eq_refl Hsize)
      as (_ & _ & _ & retval & dap' & w' & Hread & _ & _ & _ & _ & _ & Hpos).
    exists dap', w'. rewrite Hread. rewrite (Hpos eq_refl). reflexivity.
  - destruct (read_translates_transport_result (answering_host (-7)) session64 0 _
                250 CMSIS_DAP_BLOCKING open_world eq_refl eq_refl Hsize)
      as (_ & _ & _ & retval & dap' & w' & Hread & _ & _ & _ & Hother & _).
    exists dap', w'. rewrite Hread. rewrite Hother; [reflexivity | discriminate..].
Defined.

(** C4 as stated fails: a transport result of -2 is negative, and read
    returns it as it is, -2, which is not [ERROR_FAIL]: the code compares the
    result with -1 only. *)
Lemma read_returns_other_negative_result_unchanged :
  connected session64 0
  /\ fst (hid_read_answer (answering_host (-2)) (List.length (hid_log open_world))
            (packet_buffer_size session64)
            (read_wait_ms 250 CMSIS_DAP_BLOCKING)) = -2
  /\ -2 < 0
  /\ cmsis_dap_hid_read (answering_host (-2)) session64 250 CMSIS_DAP_BLOCKING open_world
     = Ok (-2, session64, log_call (Hid_read_timeout 0 65 250) open_world)
  /\ -2 <> ERROR_FAIL.
Proof. repeat split; discriminate. Qed.

(** ** The packet buffer *)

Lemma allocated_set_buffer (dap : cmsis_dap) (buf buf' : list Z) :
  allocated dap -> packet_buffer dap = Some buf ->
  List.length buf' = List.length buf ->
  allocated (set_packet_buffer dap (Some buf')).
Proof.
  intros Halloc Hbuf Hl. open_session Halloc.
  assert (buf0 = buf) by congruence. subst buf0.
  exists buf'. cbn. repeat split; try assumption. lia.
Qed.

Lemma write_inversion (h : host) (dap : cmsis_dap) (txlen timeout_ms : Z)
    (w : world) (r : Z) (dap' : cmsis_dap) (w' : world) :
  cmsis_dap_hid_write h dap txlen timeout_ms w = Ok (r, dap', w') ->
  exists buf buf',
    packet_buffer dap = Some buf
    /\ dap' = set_packet_buffer dap (Some buf')
    /\ List.length buf' = List.length buf.
Proof.
  unfold cmsis_dap_hid_write.
  destruct (packet_buffer dap) as [buf|]; [|discriminate]. cbn [deref bind].
  destruct (memset buf 0 0 1) as [buf1|] eqn:E1; [|discriminate]. cbn [bind].
  destruct (command dap) as [cmd|]; [|discriminate]. cbn [deref bind].
  destruct (memset buf1 _ 0 _) as [buf2|] eqn:E2; [|discriminate]. cbn [bind].
  destruct (bdata dap) as [bd|]; [|discriminate]. cbn [deref bind].
  destruct (dev_handle bd) as [dev|]; [|discriminate]. cbn [deref bind].
  destruct (load_bytes buf2 _) as [data|]; [|discriminate]. cbn [bind].
  unfold hid_write. apply memset_length in E1, E2.
  intros Hw. exists buf, buf2. split; [reflexivity|]. split; [|congruence].
  destruct (_ =? -1); now injection Hw as _ <- _.
Qed.

Lemma read_inversion (h : host) (dap : cmsis_dap) (transfer_timeout_ms : Z)
    (blocking : cmsis_dap_blocking) (w : world) (r : Z) (dap' : cmsis_dap)
    (w' : world) :
  cmsis_dap_hid_read h dap transfer_timeout_ms blocking w = Ok (r, dap', w') ->
  forall buf, packet_buffer dap = Some buf ->
  exists buf',
    dap' = set_packet_buffer dap (Some buf')
    /\ List.length buf' = List.length buf.
Proof.
  unfold cmsis_dap_hid_read. intros Hr buf Hbuf. rewrite Hbuf in Hr.
  destruct (bdata dap) as [bd|]; [|discriminate]. cbn [deref bind] in Hr.
  destruct (dev_handle bd) as [dev|]; [|discriminate]. cbn [deref bind] in Hr.
  unfold hid_read_timeout in Hr.
  destruct (hid_read_answer h _ _ _) as [retval answer].
  destruct (receive (Some buf) _) as [filled|] eqn:E; [|discriminate].
  cbn [bind] in Hr.
  apply receive_length in E as [buf' [-> Hl]].
  exists buf'. split; [|exact Hl].
  destruct (retval =? 0); [now injection Hr as _ <- _|].
  destruct (retval =? -1); now injection Hr as _ <- _.
Qed.

Lemma run_op_keeps_buffer (h : host) (op : session_op) (dap : cmsis_dap)
    (w : world) (dap' : cmsis_dap) (w' : world) :
  allocated dap -> run_op h op dap w = Ok (dap', w') ->
  allocated dap'
  /\ packet_size dap' = packet_size dap
  /\ packet_buffer_size dap' = packet_buffer_size dap
  /\ bdata dap' = bdata dap.
Proof.
  intros Halloc Hrun. destruct op as [t b|n t|]; cbn [run_op Backend.read Backend.write Backend.cancel_all cmsis_dap_hid_backend]
    in Hrun.
  - destruct (cmsis_dap_hid_read h dap t b w) as [[[r s] w1]|] eqn:E; [|discriminate].
    cbn in Hrun. injection Hrun as <- <-.
    pose proof Halloc as [buf (Hb & _)].
    destruct (read_inversion h dap t b w r s w1 E buf Hb) as (buf' & -> & Hl).
    split; [now apply (allocated_set_buffer dap buf)|]. repeat split.
  - destruct (cmsis_dap_hid_write h dap n t w) as [[[r s] w1]|] eqn:E; [|discriminate].
    cbn in Hrun. injection Hrun as <- <-.
    apply write_inversion in E as (buf & buf' & Hb & -> & Hl).
    split; [now apply (allocated_set_buffer dap buf)|]. repeat split.
  - unfold cmsis_dap_hid_cancel_all in Hrun. injection Hrun as <- <-.
    repeat split. exact Halloc.
Qed.

Lemma run_ops_keep_buffer (h : host) (ops : list session_op) :
  forall dap w dap' w',
  allocated dap -> run_ops h ops dap w = Ok (dap', w') ->
  allocated dap'
  /\ packet_size dap' = packet_size dap
  /\ packet_buffer_size dap' = packet_buffer_size dap
  /\ bdata dap' = bdata dap.
Proof.
  induction ops as [|op ops IH]; intros dap w dap' w' Halloc Hrun; cbn [run_ops] in Hrun.
  - injection Hrun as <- <-. repeat split. exact Halloc.
  - destruct (run_op h op dap w) as [[s w1]|] eqn:E; [|discriminate].
    cbn [bind fst snd] in Hrun.
    apply run_op_keeps_buffer in E as (Ha & Hp & Hb & Hd); [|exact Halloc].
    apply IH in Hrun as (Ha' & Hp' & Hb' & Hd'); [|exact Ha].
    repeat split; [exact Ha' | congruence..].
Qed.

Lemma run_op_defined (h : host) (op : session_op) (dap : cmsis_dap) (dev : nat)
    (w : world) :
  allocated dap -> connected dap dev ->
  match op with
  | Op_write n _ => 0 <= n <= packet_size dap
  | _ => True
  end ->
  exists s, run_op h op dap w = Ok s.
Proof.
  intros Halloc Hconn Hop.
  destruct op as [t b|n t|];
    cbn [run_op Backend.read Backend.write Backend.cancel_all cmsis_dap_hid_backend].
  - pose proof Halloc as Hsession. open_session Halloc.
    rewrite (read_returns h dap dev buf) by (assumption || lia).
    eexists. reflexivity.
  - pose proof Halloc as Hsession. open_session Halloc.
    rewrite (write_in_range h dap dev buf) by assumption.
    eexists. reflexivity.
  - eexists. reflexivity.
Qed.

Lemma run_ops_defined (h : host) (dev : nat) (ops : list session_op) :
  forall dap w,
  allocated dap -> connected dap dev -> writes_within (packet_size dap) ops ->
  exists s, run_ops h ops dap w = Ok s.
Proof.
  induction ops as [|op ops IH]; intros dap w Halloc Hconn Hops; cbn [run_ops].
  - eexists. reflexivity.
  - inversion Hops as [|? ? Hop Hrest]; subst.
    destruct (run_op_defined h op dap dev w Halloc Hconn Hop) as [[s w1] Hs].
    rewrite Hs. cbn [bind fst snd].
    apply run_op_keeps_buffer in Hs as (Ha & Hp & _ & Hd); [|exact Halloc].
    apply IH; [exact Ha | unfold connected in *; congruence | now rewrite Hp].
Qed.

(** C9 (as amended).  For every requested packet size below [UINT_MAX], an
    allocation that succeeds sets [packet_buffer_size] to [pkt_sz + 1] (the
    report prefix is one byte), [packet_size] to [pkt_sz], [command] to
    [packet_buffer + 1] and [response] to [packet_buffer].  The relation
    [packet_buffer_size = packet_size + REPORT_ID_SIZE], with the buffer being
    that long, holds after the allocation and after every run of reads,
    writes and cancel-alls that follows; such a run is defined when the
    session holds a handle and the writes stay within the packet. *)
Theorem alloc_establishes_buffer_sizes (h : host) (dap : cmsis_dap) (pkt_sz : Z)
    (w : world) :
  0 <= pkt_sz < UINT_MAX ->
  malloc_ok h (n_malloc w) = true ->
  exists dap' w',
    cmsis_dap_hid_alloc h dap pkt_sz w = (ERROR_OK, dap', w')
    /\ REPORT_ID_SIZE = 1
    /\ packet_buffer_size dap' = pkt_sz + 1
    /\ packet_size dap' = pkt_sz
    /\ packet_buffer_ptr dap' = Some 0
    /\ command dap' = ptr_add (packet_buffer_ptr dap') 1
    /\ response dap' = packet_buffer_ptr dap'
    /\ allocated dap'
    /\ (forall h' ops w1 dap'' w'',
          run_ops h' ops dap' w1 = Ok (dap'', w'') ->
          allocated dap''
          /\ packet_size dap'' = pkt_sz
          /\ packet_buffer_size dap'' = packet_size dap'' + REPORT_ID_SIZE)
    /\ (forall h' ops w1 dev,
          connected dap' dev -> writes_within pkt_sz ops ->
          exists s, run_ops h' ops dap' w1 = Ok s).
Proof.
  intros Hsz Hmem. unfold cmsis_dap_hid_alloc, malloc. rewrite Hmem.
  unfold REPORT_ID_SIZE. rewrite to_uint_small by lia.
  eexists _, _. split; [reflexivity|]. split; [reflexivity|].
  match goal with
  | |- packet_buffer_size ?s = _ /\ _ =>
      assert (Halloc : allocated s)
  end.
  { eexists. cbn. unfold REPORT_ID_SIZE.
    repeat split; try reflexivity; try lia.
    rewrite length_map, length_seq. lia. }
  do 5 (split; [reflexivity|]). split; [exact Halloc|]. split.
  - intros h' ops w1 dap'' w'' Hrun.
    destruct (run_ops_keep_buffer h' ops _ w1 dap'' w'' Halloc Hrun)
      as (Ha & Hp & Hb & _).
    split; [exact Ha|]. split; [exact Hp|]. rewrite Hp, Hb. reflexivity.
  - intros h' ops w1 dev Hconn Hops.
    apply (run_ops_defined h' dev); assumption.
Qed.

Lemma alloc_establishes_buffer_sizes_witness :
  0 <= 512 < UINT_MAX
  /\ exists dap' w',
       cmsis_dap_hid_alloc bench_host session64 512 open_world = (ERROR_OK, dap', w')
       /\ packet_buffer_size dap' = 513
       /\ packet_size dap' = 512
       /\ command dap' = Some 1
       /\ response dap' = Some 0
       /\ exists dap'' w'',
            run_ops (answering_host 513)
              [Op_write 4 0; Op_read 250 CMSIS_DAP_BLOCKING; Op_cancel_all;
               Op_write 512 0] dap' w'
            = Ok (dap'', w'')
            /\ packet_buffer_size dap'' = packet_size dap'' + REPORT_ID_SIZE.
Proof.
  assert (R : 0 <= 512 < UINT_MAX) by (split; [discriminate | reflexivity]).
  split; [exact R|].
  destruct (alloc_establishes_buffer_sizes bench_host session64 512 open_world
              R eq_refl)
    as (dap' & w' & Hrun & _ & Hbs & Hps & Hptr & Hcmd & Hresp & _ & Hkeep & Hdef).
  exists dap', w'. rewrite Hptr in Hcmd, Hresp.
  do 5 (split; [assumption|]).
  assert (Hconn : connected dap' 0).
  { unfold cmsis_dap_hid_alloc in Hrun. cbn in Hrun. now injection Hrun as <- _. }
  destruct (Hdef (answering_host 513)
              [Op_write 4 0; Op_read 250 CMSIS_DAP_BLOCKING; Op_cancel_all;
               Op_write 512 0] w' 0%nat Hconn) as [[dap'' w''] Hops].
  - repeat constructor; discriminate.
  - exists dap'', w''. split; [exact Hops|].
    apply (Hkeep _ _ _ _ _ Hops).
Defined.

(** C9 as stated fails: for the packet size [UINT_MAX] the unsigned sum
    [pkt_sz + REPORT_ID_SIZE] wraps around to 0, and the allocation of an
    empty block succeeds with [packet_buffer_size] 0, not [pkt_sz + 1]. *)
Lemma alloc_size_wraps_at_uint_max :
  exists dap' w',
    cmsis_dap_hid_alloc bench_host blank_dap UINT_MAX idle_world = (ERROR_OK, dap', w')
    /\ packet_size dap' = UINT_MAX
    /\ packet_buffer_size dap' = 0
    /\ packet_buffer_size dap' <> UINT_MAX + 1
    /\ packet_buffer_size dap' <> packet_size dap' + REPORT_ID_SIZE.
Proof.
  eexists _, _. split; [reflexivity|]. repeat split; discriminate.
Qed.

(** ** Resources across open *)

(** The scan touches nothing but the allocator, and frees what it got. *)
Lemma scan_world (h : host) (ids : usb_ids) (serial : option string)
    (devs : list hid_device_info) :
  forall w r w',
  scan_devices h ids serial devs w = Ok (r, w') ->
  exists k, w' = with_mallocs w k.
Proof.
  induction devs as [|x devs IH]; intros w r w' Hscan; cbn [scan_devices] in Hscan.
  - injection Hscan as _ <-. exists (n_malloc w). now rewrite with_mallocs_same.
  - destruct (device_found ids x).
    + destruct serial as [s|].
      * destruct (serial_number x) as [ds|].
        -- unfold malloc in Hscan. destruct (malloc_ok h (n_malloc w)).
           ++ destruct (wserial_string h s _) as [ws|]; cbn [bind] in Hscan; [|discriminate].
              destruct (wcscmp ws ds =? 0).
              ** injection Hscan as _ <-. now exists (S (n_malloc w)).
              ** apply IH in Hscan as [k ->]. now exists k.
           ++ injection Hscan as _ <-. now exists (S (n_malloc w)).
        -- now apply IH in Hscan.
      * injection Hscan as _ <-. exists (n_malloc w). now rewrite with_mallocs_same.
    + now apply IH in Hscan.
Qed.

Lemma in_filter_other (x dev : nat) (l : list nat) :
  In x (filter (fun y => negb (Nat.eqb y dev)) l) <-> In x l /\ x <> dev.
Proof.
  rewrite filter_In, negb_true_iff, Nat.eqb_neq. tauto.
Qed.

(** C6.  When open has found its device, has allocated its backend data and
    has opened the handle, and the allocation of the packet buffer then
    fails, open returns [ERROR_FAIL] after closing that handle: the handle
    is not among the open handles of the world open returns in, which are
    handles that were open before the call; the backend data is released and
    its pointer reset. *)
Theorem open_closes_handle_when_buffer_alloc_fails
    (h : host) (dap : cmsis_dap) (ids : usb_ids) (serial : option string)
    (w w1 : world) (d : hid_device_info) :
  hid_init_ret h = 0 ->
  scan_devices h ids serial (hid_devices h) (scan_start h w)
    = Ok (Scan_left (Some d), w1) ->
  (vendor_id d =? 0) && (product_id d =? 0) = false ->
  malloc_ok h (n_malloc w1) = true ->
  hid_can_open h (path d) = true ->
  malloc_ok h (S (n_malloc w1)) = false ->
  fst (hid_open_path h (path d) (snd (malloc h sizeof_backend_data w1)))
    = Some (next_handle w)
  /\ exists dap' w',
       cmsis_dap_hid_open h dap ids serial w = Ok (Exit_buffer_alloc, dap', w')
       /\ exit_code Exit_buffer_alloc = ERROR_FAIL
       /\ ~ In (next_handle w) (handles w')
       /\ (forall x, In x (handles w') <-> In x (handles w) /\ x <> next_handle w)
       /\ bdata dap' = None
       /\ packet_buffer dap' = None
       /\ enums_live w' = enums_live w.
Proof.
  intros Hinit Hscan Hnonzero Hbdata Hopen Hbuffer.
  destruct (scan_world _ _ _ _ _ _ _ Hscan) as [k Hw1].
  assert (Hnh : next_handle w1 = next_handle w) by (subst w1; reflexivity).
  split.
  { unfold hid_open_path, malloc. rewrite Hbdata. cbn. rewrite Hopen. cbn.
    now rewrite Hnh. }
  unfold cmsis_dap_hid_open.
  unfold scan_start, hid_init, hid_enumerate in Hscan. rewrite Hinit in Hscan.
  unfold hid_init, hid_enumerate. rewrite Hinit.
  cbn [Z.eqb negb fst snd] in *. rewrite Hscan. cbn [bind].
  rewrite Hnonzero. unfold malloc at 1. rewrite Hbdata. cbn [deref bind].
  unfold hid_open_path. cbn [n_malloc handles next_handle]. rewrite Hopen.
  unfold cmsis_dap_hid_alloc, malloc. cbn [n_malloc hid_free_enumeration].
  rewrite Hbuffer. cbn [Z.eqb negb ERROR_FAIL ERROR_OK].
  unfold cmsis_dap_hid_close. cbn.
  eexists _, _. split; [reflexivity|]. split; [reflexivity|].
  rewrite Nat.eqb_refl. cbn [negb].
  rewrite Hnh. subst w1. cbn.
  destruct (packet_buffer dap); cbn.
  - split; [|split; [|repeat split]].
    + rewrite in_filter_other. tauto.
    + intros x. apply in_filter_other.
  - split; [|split; [|repeat split]].
    + rewrite in_filter_other. tauto.
    + intros x. apply in_filter_other.
Qed.

Lemma open_closes_handle_when_buffer_alloc_fails_witness :
  hid_can_open starved_host (path atmel_ice) = true
  /\ malloc_ok starved_host 1 = false
  /\ cmsis_dap_hid_open starved_host blank_dap [] None idle_world
     = Ok (Exit_buffer_alloc, blank_dap,
           {| hid_ready := false; enums_live := 0; handles := [];
              next_handle := 1; n_malloc := 2; heap_blocks := 0; hid_log := [] |}).
Proof.
  split; [reflexivity|]. split; [reflexivity|].
  destruct (open_closes_handle_when_buffer_alloc_fails starved_host blank_dap [] None
              idle_world (scan_start starved_host idle_world) atmel_ice
              eq_refl eq_refl eq_refl eq_refl eq_refl eq_refl)
    as (_ & dap' & w' & Hopen & _).
  rewrite Hopen. vm_compute in Hopen. injection Hopen as <- <-. reflexivity.
Defined.

(** The enumerations outstanding after open, by the [return] taken. *)
Lemma open_enumeration_balance (h : host) (dap : cmsis_dap) (ids : usb_ids)
    (serial : option string) (w : world) (e : open_exit) (dap' : cmsis_dap)
    (w' : world) :
  cmsis_dap_hid_open h dap ids serial w = Ok (e, dap', w') ->
  enums_live w'
  = match e with
    | Exit_serial_alloc | Exit_bdata_alloc => S (enums_live w)
    | _ => enums_live w
    end.
Proof.
  unfold cmsis_dap_hid_open, hid_init, hid_enumerate.
  destruct (negb (hid_init_ret h =? 0)).
  { intros [= <- _ <-]. reflexivity. }
  destruct (scan_devices h ids serial (hid_devices h) _) as [[r w1]|] eqn:Hscan;
    cbn [bind]; [|discriminate].
  apply scan_world in Hscan as [k ->].
  destruct r as [|cur_dev].
  { intros [= <- _ <-]. reflexivity. }
  destruct ((_ =? 0) && (_ =? 0)).
  { intros [= <- _ <-]. reflexivity. }
  unfold malloc. cbn [n_malloc with_mallocs].
  destruct (malloc_ok h k).
  2:{ intros [= <- _ <-]. reflexivity. }
  destruct cur_dev as [d|]; cbn [deref bind]; [|discriminate].
  unfold hid_open_path. destruct (hid_can_open h (path d)).
  2:{ intros [= <- _ <-]. reflexivity. }
  unfold cmsis_dap_hid_alloc, malloc. cbn [n_malloc hid_free_enumeration].
  destruct (malloc_ok h (S k)); cbn.
  - intros [= <- _ <-]. reflexivity.
  - destruct (packet_buffer dap); cbn; intros [= <- _ <-]; reflexivity.
Qed.

(** A failed allocation of the serial buffer ends the scan with the error
    return. *)
Lemma scan_serial_alloc_failure (h : host) (ids : usb_ids) (s : string)
    (d : hid_device_info) (ds : wstring) (next : list hid_device_info) (w : world) :
  device_found ids d = true -> serial_number d = Some ds ->
  malloc_ok h (n_malloc w) = false ->
  scan_devices h ids (Some s) (d :: next) w
  = Ok (Scan_return_fail, with_mallocs w (S (n_malloc w))).
Proof.
  intros Hf Hs Hm. cbn [scan_devices]. rewrite Hf, Hs. unfold malloc.
  rewrite Hm. reflexivity.
Qed.

(** C8, where the code falls short of it.  With the backend data not
    allocated, and with the serial buffer not allocated, open returns
    [ERROR_FAIL] while the enumeration it obtained is still outstanding:
    these two returns come before any [hid_free_enumeration]. *)
Lemma open_returns_with_enumeration_outstanding :
  cmsis_dap_hid_open exhausted_host blank_dap [] None idle_world
  = Ok (Exit_bdata_alloc, blank_dap,
        {| hid_ready := true; enums_live := 1; handles := [];
           next_handle := 0; n_malloc := 1; heap_blocks := 0; hid_log := [] |})
  /\ cmsis_dap_hid_open exhausted_host blank_dap [] (Some "J41800012345"%string)
       idle_world
     = Ok (Exit_serial_alloc, blank_dap,
           {| hid_ready := true; enums_live := 1; handles := [];
              next_handle := 0; n_malloc := 1; heap_blocks := 0; hid_log := [] |})
  /\ enums_live idle_world = 0%nat.
Proof. repeat split. Qed.

(** C7, where the code falls short of it.  A serial that the locale cannot
    convert makes [mbstowcs] return [(size_t)-1]; the length computed from it
    wraps around to 0, the empty block is allocated, and [wcscmp] reads it:
    open has no defined behaviour, and returns no error.  The failed
    allocation of the serial buffer, on the other hand, is reported. *)
Lemma open_serial_conversion_failure_unreported :
  mbstowcs bench_host latin1_serial = None
  /\ mbstowcs_ret bench_host latin1_serial = SIZE_MAX
  /\ to_size_t (mbstowcs_ret bench_host latin1_serial + 1) = 0
  /\ cmsis_dap_hid_open bench_host blank_dap [] (Some latin1_serial) idle_world
     = Undefined
  /\ exists w',
       cmsis_dap_hid_open exhausted_host blank_dap [] (Some "J41800012345"%string)
         idle_world
       = Ok (Exit_serial_alloc, blank_dap, w')
       /\ exit_code Exit_serial_alloc = ERROR_FAIL.
Proof.
  repeat split. eexists. split; reflexivity.
Qed.

(** * Further properties of the code *)

(** ** The loops of open *)

(** X1.  Without a requested serial the scan of [cmsis_dap_hid_open] stops
    at the first device of the enumeration for which [found] holds, or runs
    to the end; it allocates nothing, changes nothing in the world and has a
    defined result on every host, so that open never leaves by the serial
    buffer's error return. *)
Theorem scan_without_serial (h : host) (ids : usb_ids)
    (devs : list hid_device_info) (w : world) :
  scan_devices h ids None devs w
  = Ok (Scan_left (find (device_found ids) devs), w)
  /\ forall dap, exists e dap' w',
       cmsis_dap_hid_open h dap ids None w = Ok (e, dap', w')
       /\ e <> Exit_serial_alloc.
Proof.
  assert (Hscan : forall l w0,
            scan_devices h ids None l w0
            = Ok (Scan_left (find (device_found ids) l), w0)).
  { induction l as [|x l IH]; intros w0; cbn [scan_devices find].
    - reflexivity.
    - destruct (device_found ids x); [reflexivity | apply IH]. }
  split; [apply Hscan|]. intros dap.
  unfold cmsis_dap_hid_open, hid_init, hid_enumerate.
  destruct (negb (hid_init_ret h =? 0)).
  { eexists _, _, _. split; [reflexivity | discriminate]. }
  rewrite Hscan. cbn [bind].
  destruct (find (device_found ids) (hid_devices h)) as [d|]; cbn [deref bind].
  2:{ cbn. eexists _, _, _. split; [reflexivity | discriminate]. }
  destruct ((vendor_id d =? 0) && (product_id d =? 0)).
  { eexists _, _, _. split; [reflexivity | discriminate]. }
  unfold malloc. cbn [n_malloc].
  destruct (malloc_ok h (n_malloc w)).
  2:{ eexists _, _, _. split; [reflexivity | discriminate]. }
  unfold hid_open_path. destruct (hid_can_open h (path d)).
  2:{ eexists _, _, _. split; [reflexivity | discriminate]. }
  unfold cmsis_dap_hid_alloc, malloc. cbn [n_malloc hid_free_enumeration].
  destruct (malloc_ok h (S (n_malloc w))); cbn.
  - eexists _, _, _. split; [reflexivity | discriminate].
  - eexists _, _, _. split; [reflexivity | discriminate].
Qed.

(** X2.  With a serial requested, devices that pass the filter but have no
    serial number are passed over before anything is converted or
    allocated: over an enumeration in which every device found lacks a
    serial number the scan runs to the end with the world unchanged,
    whether or not the requested serial can be converted and whether or not
    memory is left. *)
Theorem scan_passes_devices_without_serial (h : host) (ids : usb_ids) (s : string)
    (devs : list hid_device_info) (w : world) :
  (forall x, In x devs -> device_found ids x = true -> serial_number x = None) ->
  scan_devices h ids (Some s) devs w = Ok (Scan_left None, w).
Proof.
  induction devs as [|x devs IH]; intros Hbare; cbn [scan_devices].
  - reflexivity.
  - destruct (device_found ids x) eqn:F.
    + rewrite (Hbare x (or_introl eq_refl) F). apply IH.
      intros y Hy. apply Hbare. now right.
    + apply IH. intros y Hy. apply Hbare. now right.
Qed.

Lemma scan_passes_devices_without_serial_witness :
  mbstowcs bare_host latin1_serial = None
  /\ malloc_ok bare_host 0 = false
  /\ scan_devices bare_host [] (Some latin1_serial) [keyboard; bare_probe] idle_world
     = Ok (Scan_left None, idle_world).
Proof.
  split; [reflexivity|]. split; [reflexivity|].
  apply (scan_passes_devices_without_serial bare_host [] latin1_serial
           [keyboard; bare_probe] idle_world).
  intros x [<-|[<-|[]]] Hf; [discriminate Hf | reflexivity].
Defined.

(** X3.  Whatever way the scan ends, by a [break], at the end of the list
    or by the error return after a failed allocation, every serial buffer
    it allocated has been freed again: the number of live blocks, the open
    handles, the outstanding enumerations and the transfers are those from
    before, and only the count of allocations has grown. *)
Theorem scan_frees_serial_buffers (h : host) (ids : usb_ids)
    (serial : option string) (devs : list hid_device_info) (w : world)
    (r : scan_result) (w' : world) :
  scan_devices h ids serial devs w = Ok (r, w') ->
  heap_blocks w' = heap_blocks w
  /\ handles w' = handles w
  /\ next_handle w' = next_handle w
  /\ enums_live w' = enums_live w
  /\ hid_ready w' = hid_ready w
  /\ hid_log w' = hid_log w.
Proof.
  intros Hscan. apply scan_world in Hscan as [k ->]. repeat split.
Qed.

Lemma scan_frees_serial_buffers_witness :
  scan_devices starved_host [] (Some daplink_serial)
    [keyboard; atmel_ice; daplink] busy_world
  = Ok (Scan_left (Some daplink), with_mallocs busy_world 9)
  /\ heap_blocks (with_mallocs busy_world 9) = heap_blocks busy_world
  /\ scan_devices starved_host [] (Some daplink_serial)
       [keyboard; atmel_ice; daplink] idle_world
     = Ok (Scan_return_fail, with_mallocs idle_world 2)
  /\ heap_blocks (with_mallocs idle_world 2) = heap_blocks idle_world.
Proof.
  assert (H1 : scan_devices starved_host [] (Some daplink_serial)
                 [keyboard; atmel_ice; daplink] busy_world
               = Ok (Scan_left (Some daplink), with_mallocs busy_world 9))
    by reflexivity.
  assert (H2 : scan_devices starved_host [] (Some daplink_serial)
                 [keyboard; atmel_ice; daplink] idle_world
               = Ok (Scan_return_fail, with_mallocs idle_world 2))
    by reflexivity.
  split; [exact H1|]. split; [|split; [exact H2|]].
  - exact (proj1 (scan_frees_serial_buffers _ _ _ _ _ _ _ H1)).
  - exact (proj1 (scan_frees_serial_buffers _ _ _ _ _ _ _ H2)).
Defined.

Lemma filter_pairs_stop (ids rest : usb_ids) :
  filter_pairs (ids ++ (0, 0) :: rest) = filter_pairs ids.
Proof.
  induction ids as [|[v p] ids IH]; cbn [filter_pairs app].
  - reflexivity.
  - destruct ((v =? 0) && (p =? 0)); [reflexivity | now rewrite IH].
Qed.

Lemma first_vid_stop (ids rest : usb_ids) :
  first_vid_is_zero (ids ++ (0, 0) :: rest) = first_vid_is_zero ids.
Proof. destruct ids as [|[v p] ids]; reflexivity. Qed.

Lemma bool_ext (a b : bool) : (a = true <-> b = true) -> a = b.
Proof. destruct a, b; intuition congruence. Qed.

Lemma device_found_by_pairs (ids ids' : usb_ids) (d : hid_device_info) :
  first_vid_is_zero ids = first_vid_is_zero ids' ->
  (forall vp, In vp (filter_pairs ids) <-> In vp (filter_pairs ids')) ->
  device_found ids d = device_found ids' d.
Proof.
  intros Hfirst Hpairs. apply bool_ext.
  rewrite !device_found_iff, <- Hfirst. unfold listed.
  destruct (first_vid_is_zero ids); [tauto|]. rewrite Hpairs. tauto.
Qed.

Lemma scan_by_found (h : host) (ids ids' : usb_ids) (serial : option string)
    (devs : list hid_device_info) :
  (forall d, device_found ids d = device_found ids' d) ->
  forall w, scan_devices h ids serial devs w = scan_devices h ids' serial devs w.
Proof.
  intros Hsame. induction devs as [|x devs IH]; intros w; cbn [scan_devices].
  - reflexivity.
  - rewrite <- Hsame. destruct (device_found ids x); [|apply IH].
    destruct serial as [s|]; [|reflexivity].
    destruct (serial_number x) as [ds|]; [|apply IH].
    destruct (malloc h _ w) as [[blk|] w1]; [|reflexivity].
    destruct (wserial_string h s _) as [ws|]; cbn [bind]; [|reflexivity].
    destruct (wcscmp ws ds =? 0); [reflexivity | apply IH].
Qed.

(** X4.  The VID:PID arrays are read up to their first pair of zeros and no
    further: whatever follows that pair has no influence on the scan.  Among
    the pairs in front of it neither the order nor repetitions matter: two
    filters with the same pairs, and both or neither with a first vendor id
    of 0, select the same device. *)
Theorem filter_read_up_to_zero_pair (h : host) (serial : option string)
    (devs : list hid_device_info) (w : world) :
  (forall ids rest,
     scan_devices h (ids ++ (0, 0) :: rest) serial devs w
     = scan_devices h ids serial devs w)
  /\
  (forall ids ids',
     first_vid_is_zero ids = first_vid_is_zero ids' ->
     (forall vp, In vp (filter_pairs ids) <-> In vp (filter_pairs ids')) ->
     scan_devices h ids serial devs w = scan_devices h ids' serial devs w).
Proof.
  split.
  - intros ids rest. apply scan_by_found. intros d.
    apply device_found_by_pairs.
    + apply first_vid_stop.
    + intros vp. now rewrite filter_pairs_stop.
  - intros ids ids' Hfirst Hpairs. apply scan_by_found. intros d.
    now apply device_found_by_pairs.
Qed.

Lemma filter_read_up_to_zero_pair_witness :
  scan_devices bench_host
    [(0x0d28, 0x0204); (0x03eb, 0x2141); (0x0d28, 0x0204)] None
    [keyboard; daplink; atmel_ice] idle_world
  = scan_devices bench_host [(0x03eb, 0x2141); (0x0d28, 0x0204)] None
      [keyboard; daplink; atmel_ice] idle_world
  /\ scan_devices bench_host [(0x03eb, 0x2141); (0, 0); (0x0d28, 0x0204)] None
       [keyboard; daplink; atmel_ice] idle_world
     = Ok (Scan_left (Some atmel_ice), idle_world).
Proof.
  destruct (filter_read_up_to_zero_pair bench_host None
              [keyboard; daplink; atmel_ice] idle_world) as [Hstop Hset].
  split.
  - apply Hset; [reflexivity|]. intros vp. cbn. tauto.
  - exact (eq_trans (Hstop [(0x03eb, 0x2141)] [(0x0d28, 0x0204)]) eq_refl).
Defined.

(** ** The quirk loop on any table *)

Lemma quirk_loop_no_match (entries : list cmsis_dap_report_size)
    (stop : cmsis_dap_report_size) (after : list cmsis_dap_report_size)
    (tv tp : Z) :
  vid stop = 0 ->
  (forall x, In x entries -> ~ (vid x = tv /\ pid x = tp)) ->
  forall size,
  quirk_loop (entries ++ stop :: after) tv tp size = size.
Proof.
  intros Hstop. induction entries as [|x entries IH]; intros Hno size;
    cbn [quirk_loop app].
  - now rewrite Hstop.
  - destruct (vid x =? 0); [reflexivity|].
    destruct ((vid x =? tv) && (pid x =? tp)) eqn:E.
    + apply andb_true_iff in E as [Ev Ep]. apply Z.eqb_eq in Ev, Ep.
      exfalso. apply (Hno x); [now left | now split].
    + apply IH. intros y Hy. apply Hno. now right.
Qed.

(** X5.  The quirk loop of open, on any table: it reads the entries up to
    the first one whose vendor id is 0, whatever the product id of that
    entry, and has no [break], so of several entries for the target pair the
    last one in front of that entry decides; without any, the size stays
    what it was. *)
Theorem quirk_loop_last_match_decides
    (before later after : list cmsis_dap_report_size)
    (e stop : cmsis_dap_report_size) (target_vid target_pid size : Z) :
  (forall x, In x before -> vid x <> 0) ->
  vid e <> 0 -> vid e = target_vid -> pid e = target_pid ->
  (forall x, In x later -> vid x <> 0 /\ ~ (vid x = target_vid /\ pid x = target_pid)) ->
  vid stop = 0 ->
  quirk_loop (before ++ e :: later ++ stop :: after) target_vid target_pid size
  = report_size e.
Proof.
  intros Hbefore He Hv Hp Hlater Hstop. revert size.
  induction before as [|x before IH]; intros size; cbn [quirk_loop app].
  - apply Z.eqb_neq in He. rewrite He.
    apply Z.eqb_eq in Hv, Hp. rewrite Hv, Hp. cbn [andb].
    apply quirk_loop_no_match; [exact Hstop|].
    intros y Hy. now apply Hlater.
  - assert (Hx : (vid x =? 0) = false)
      by (apply Z.eqb_neq, Hbefore; now left).
    rewrite Hx. apply IH. intros y Hy. apply Hbefore. now right.
Qed.

Lemma quirk_loop_last_match_decides_witness :
  quirk_loop patched_quirks 0x03eb 0x2141 64 = 1024
  /\ quirk_loop patched_quirks 0x1fc9 0x0090 64 = 64.
Proof.
  split.
  - apply (quirk_loop_last_match_decides
             [quirk 0x03eb 0x2141 512; quirk 0x0d28 0x0204 64] []
             [quirk 0x1fc9 0x0090 256]
             (quirk 0x03eb 0x2141 1024) (quirk 0 0x1234 128)).
    + intros x [<-|[<-|[]]]; discriminate.
    + discriminate.
    + reflexivity.
    + reflexivity.
    + intros x [].
    + reflexivity.
  - reflexivity.
Defined.

(** ** What open leaves behind *)

Lemma open_packet_size_values (target_vid target_pid : Z) :
  open_packet_size target_vid target_pid = 64
  \/ open_packet_size target_vid target_pid = 512.
Proof.
  unfold open_packet_size, report_size_quirks, quirk. cbn.
  repeat match goal with
         | |- context [if ?c then _ else _] => destruct c
         end; auto.
Qed.

Lemma handles_without_fresh (w : world) :
  fresh_handles w -> handles_without (next_handle w) (handles w) = handles w.
Proof.
  unfold fresh_handles, handles_without. intros Hfresh.
  induction (handles w) as [|x l IH]; cbn [filter].
  - reflexivity.
  - assert (Hx : (x < next_handle w)%nat) by (apply Hfresh; now left).
    replace (Nat.eqb x (next_handle w)) with false
      by (symmetry; apply Nat.eqb_neq; lia).
    cbn [negb]. f_equal. apply IH. intros y Hy. apply Hfresh. now right.
Qed.

(** The session and the world after open, by the [return] taken. *)
Lemma open_effects (h : host) (dap : cmsis_dap) (ids : usb_ids)
    (serial : option string) (w : world) (e : open_exit) (dap' : cmsis_dap)
    (w' : world) :
  cmsis_dap_hid_open h dap ids serial w = Ok (e, dap', w') ->
  hid_log w' = hid_log w
  /\ match e with
     | Exit_hid_init =>
         dap' = dap /\ hid_ready w' = hid_ready w
         /\ heap_blocks w' = heap_blocks w /\ handles w' = handles w
         /\ next_handle w' = next_handle w /\ n_malloc w' = n_malloc w
     | Exit_serial_alloc | Exit_not_found =>
         dap' = dap /\ hid_ready w' = true
         /\ heap_blocks w' = heap_blocks w /\ handles w' = handles w
         /\ next_handle w' = next_handle w
     | Exit_bdata_alloc =>
         dap' = set_bdata dap None /\ hid_ready w' = true
         /\ heap_blocks w' = heap_blocks w /\ handles w' = handles w
         /\ next_handle w' = next_handle w
     | Exit_open_path =>
         dap' = set_bdata dap (Some {| dev_handle := None |})
         /\ hid_ready w' = true
         /\ heap_blocks w' = S (heap_blocks w) /\ handles w' = handles w
         /\ next_handle w' = next_handle w
     | Exit_buffer_alloc =>
         dap' = set_packet_buffer (set_bdata dap None) None
         /\ hid_ready w' = false
         /\ heap_blocks w'
            = match packet_buffer dap with
              | Some _ => Nat.pred (heap_blocks w)
              | None => heap_blocks w
              end
         /\ handles w' = handles_without (next_handle w) (handles w)
         /\ next_handle w' = S (next_handle w)
     | Exit_ok =>
         connected dap' (next_handle w) /\ allocated dap'
         /\ hid_ready w' = true
         /\ heap_blocks w' = S (S (heap_blocks w))
         /\ handles w' = next_handle w :: handles w
         /\ next_handle w' = S (next_handle w)
     end.
Proof.
  unfold cmsis_dap_hid_open, hid_init, hid_enumerate.
  destruct (hid_init_ret h =? 0) eqn:Hinit; cbn [negb].
  2:{ intros [= <- <- <-]. repeat split. }
  destruct (scan_devices h ids serial (hid_devices h) _) as [[r w1]|] eqn:Hscan;
    cbn [bind]; [|discriminate].
  apply scan_world in Hscan as [k ->].
  destruct r as [|cur_dev].
  { intros [= <- <- <-]. repeat split. }
  destruct ((_ =? 0) && (_ =? 0)).
  { intros [= <- <- <-]. repeat split. }
  unfold malloc. cbn [n_malloc with_mallocs].
  destruct (malloc_ok h k).
  2:{ intros [= <- <- <-]. repeat split. }
  destruct cur_dev as [d|]; cbn [deref bind]; [|discriminate].
  unfold hid_open_path. destruct (hid_can_open h (path d)).
  2:{ intros [= <- <- <-]. repeat split. }
  unfold cmsis_dap_hid_alloc, malloc. cbn [n_malloc hid_free_enumeration].
  destruct (malloc_ok h (S k)); cbn.
  - intros [= <- <- <-]. split; [reflexivity|]. split; [reflexivity|].
    split; [|repeat split].
    destruct (open_packet_size_values
                match Some d with Some d0 => vendor_id d0 | None => 0 end
                match Some d with Some d0 => product_id d0 | None => 0 end)
      as [Hsz|Hsz]; cbn in Hsz; rewrite Hsz;
      (eexists; cbn; repeat split; try reflexivity; try discriminate).
  - rewrite Nat.eqb_refl. cbn [negb].
    destruct (packet_buffer dap); cbn; intros [= <- <- <-]; repeat split.
Qed.

(** X6.  Open leaves a handle open on success only.  When the handles open
    before the call are ones handed out earlier, every failing return
    leaves exactly those handles open; the successful return adds the one
    new handle, which is the handle the session holds; and the handles open
    afterwards are again ones handed out earlier. *)
Theorem open_adds_handle_on_success_only (h : host) (dap : cmsis_dap)
    (ids : usb_ids) (serial : option string) (w : world) (e : open_exit)
    (dap' : cmsis_dap) (w' : world) :
  cmsis_dap_hid_open h dap ids serial w = Ok (e, dap', w') ->
  fresh_handles w ->
  (e <> Exit_ok -> handles w' = handles w)
  /\ (e = Exit_ok ->
        handles w' = next_handle w :: handles w
        /\ connected dap' (next_handle w)
        /\ ~ In (next_handle w) (handles w))
  /\ fresh_handles w'.
Proof.
  intros Hopen Hfresh. apply open_effects in Hopen as [_ Heff].
  assert (Hnew : ~ In (next_handle w) (handles w))
    by (intros Hin; apply Hfresh in Hin; lia).
  destruct e; cbn in Heff.
  - destruct Heff as (_ & _ & _ & Hh & Hn & _).
    split; [intros _; exact Hh|]. split; [discriminate|].
    unfold fresh_handles. now rewrite Hh, Hn.
  - destruct Heff as (_ & _ & _ & Hh & Hn).
    split; [intros _; exact Hh|]. split; [discriminate|].
    unfold fresh_handles. now rewrite Hh, Hn.
  - destruct Heff as (_ & _ & _ & Hh & Hn).
    split; [intros _; exact Hh|]. split; [discriminate|].
    unfold fresh_handles. now rewrite Hh, Hn.
  - destruct Heff as (_ & _ & _ & Hh & Hn).
    split; [intros _; exact Hh|]. split; [discriminate|].
    unfold fresh_handles. now rewrite Hh, Hn.
  - destruct Heff as (_ & _ & _ & Hh & Hn).
    split; [intros _; exact Hh|]. split; [discriminate|].
    unfold fresh_handles. now rewrite Hh, Hn.
  - destruct Heff as (_ & _ & _ & Hh & Hn).
    rewrite handles_without_fresh in Hh by exact Hfresh.
    split; [intros _; exact Hh|]. split; [discriminate|].
    unfold fresh_handles. rewrite Hh, Hn. intros x Hx.
    apply Hfresh in Hx. lia.
  - destruct Heff as (Hconn & _ & _ & _ & Hh & Hn).
    split; [intros Hne; now elim Hne|]. split; [intros _; auto|].
    unfold fresh_handles. rewrite Hh, Hn. intros x [<-|Hx]; [lia|].
    apply Hfresh in Hx. lia.
Qed.

Lemma busy_world_fresh : fresh_handles busy_world.
Proof.
  intros x [<-|[<-|[]]]; [exact (le_n 2) | exact (le_S 1 1 (le_n 1))].
Defined.

Lemma open_adds_handle_on_success_only_witness :
  fresh_handles busy_world
  /\ (exists dap' w',
        cmsis_dap_hid_open bench_host blank_dap [] None busy_world
        = Ok (Exit_ok, dap', w')
        /\ handles w' = [2%nat; 1%nat; 0%nat]
        /\ connected dap' 2)
  /\ (exists dap' w',
        cmsis_dap_hid_open locked_host blank_dap [] None busy_world
        = Ok (Exit_open_path, dap', w')
        /\ handles w' = [1%nat; 0%nat]).
Proof.
  split; [exact busy_world_fresh|]. split.
  - destruct (cmsis_dap_hid_open bench_host blank_dap [] None busy_world)
      as [[[e dap'] w']|] eqn:Hopen; [|discriminate Hopen].
    assert (He : e = Exit_ok) by (vm_compute in Hopen; congruence). subst e.
    destruct (open_adds_handle_on_success_only _ _ _ _ _ _ _ _ Hopen busy_world_fresh)
      as (_ & Hok & _).
    destruct (Hok eq_refl) as (Hh & Hc & _).
    exists dap', w'. repeat split; assumption.
  - destruct (cmsis_dap_hid_open locked_host blank_dap [] None busy_world)
      as [[[e dap'] w']|] eqn:Hopen; [|discriminate Hopen].
    assert (He : e = Exit_open_path) by (vm_compute in Hopen; congruence). subst e.
    destruct (open_adds_handle_on_success_only _ _ _ _ _ _ _ _ Hopen busy_world_fresh)
      as (Hfail & _ & _).
    exists dap', w'. split; [reflexivity|]. apply Hfail. discriminate.
Defined.

(** X7.  The heap after open, by the return taken.  The failure of
    [hid_init], of the serial buffer, of the search and of the backend data
    leave as many live blocks as before.  When [hid_open_path] fails the
    backend data stays allocated: one block more, its [dev_handle] never
    assigned.  Success keeps two blocks, the backend data and the packet
    buffer.  When the packet buffer cannot be allocated the backend data is
    freed again, and so is the buffer the session held before the call, if
    any. *)
Theorem open_heap_by_exit (h : host) (dap : cmsis_dap) (ids : usb_ids)
    (serial : option string) (w : world) (e : open_exit) (dap' : cmsis_dap)
    (w' : world) :
  cmsis_dap_hid_open h dap ids serial w = Ok (e, dap', w') ->
  heap_blocks w'
  = match e with
    | Exit_ok => S (S (heap_blocks w))
    | Exit_open_path => S (heap_blocks w)
    | Exit_buffer_alloc =>
        match packet_buffer dap with
        | Some _ => Nat.pred (heap_blocks w)
        | None => heap_blocks w
        end
    | _ => heap_blocks w
    end
  /\ (e = Exit_open_path -> bdata dap' = Some {| dev_handle := None |}).
Proof.
  intros Hopen. apply open_effects in Hopen as [_ Heff].
  destruct e; cbn in Heff.
  - destruct Heff as (_ & _ & Hb & _). split; [exact Hb | discriminate].
  - destruct Heff as (_ & _ & Hb & _). split; [exact Hb | discriminate].
  - destruct Heff as (_ & _ & Hb & _). split; [exact Hb | discriminate].
  - destruct Heff as (_ & _ & Hb & _). split; [exact Hb | discriminate].
  - destruct Heff as (-> & _ & Hb & _). split; [exact Hb | reflexivity].
  - destruct Heff as (_ & _ & Hb & _). split; [exact Hb | discriminate].
  - destruct Heff as (_ & _ & _ & Hb & _). split; [exact Hb | discriminate].
Qed.

Lemma open_heap_by_exit_witness :
  exists dap' w',
    cmsis_dap_hid_open locked_host blank_dap [] None busy_world
    = Ok (Exit_open_path, dap', w')
    /\ heap_blocks w' = 4%nat
    /\ heap_blocks busy_world = 3%nat
    /\ bdata dap' = Some {| dev_handle := None |}.
Proof.
  destruct (cmsis_dap_hid_open locked_host blank_dap [] None busy_world)
    as [[[e dap'] w']|] eqn:Hopen; [|discriminate Hopen].
  assert (He : e = Exit_open_path) by (vm_compute in Hopen; congruence). subst e.
  destruct (open_heap_by_exit _ _ _ _ _ _ _ _ Hopen) as [Hb Hd].
  exists dap', w'. split; [reflexivity|]. split; [exact Hb|].
  split; [reflexivity | now apply Hd].
Defined.

(** X8.  HIDAPI after open, by the return taken: [hid_exit] is called on
    one path only, the failed allocation of the packet buffer.  After every
    other return that follows a successful [hid_init], failures included,
    HIDAPI is left initialised; after a failed [hid_init] it is as it was. *)
Theorem open_hid_exit_by_exit (h : host) (dap : cmsis_dap) (ids : usb_ids)
    (serial : option string) (w : world) (e : open_exit) (dap' : cmsis_dap)
    (w' : world) :
  cmsis_dap_hid_open h dap ids serial w = Ok (e, dap', w') ->
  hid_ready w'
  = match e with
    | Exit_hid_init => hid_ready w
    | Exit_buffer_alloc => false
    | _ => true
    end.
Proof.
  intros Hopen. apply open_effects in Hopen as [_ Heff].
  destruct e; cbn in Heff; tauto.
Qed.

Lemma open_hid_exit_by_exit_witness :
  (exists dap' w',
     cmsis_dap_hid_open bench_host blank_dap [(0x1234, 0x5678)] None idle_world
     = Ok (Exit_not_found, dap', w')
     /\ hid_ready w' = true)
  /\ (exists dap' w',
        cmsis_dap_hid_open no_hid_host blank_dap [] None idle_world
        = Ok (Exit_hid_init, dap', w')
        /\ hid_ready w' = false).
Proof.
  split.
  - destruct (cmsis_dap_hid_open bench_host blank_dap [(0x1234, 0x5678)] None idle_world)
      as [[[e dap'] w']|] eqn:Hopen; [|discriminate Hopen].
    assert (He : e = Exit_not_found) by (vm_compute in Hopen; congruence). subst e.
    exists dap', w'. split; [reflexivity|].
    exact (open_hid_exit_by_exit _ _ _ _ _ _ _ _ Hopen).
  - destruct (cmsis_dap_hid_open no_hid_host blank_dap [] None idle_world)
      as [[[e dap'] w']|] eqn:Hopen; [|discriminate Hopen].
    assert (He : e = Exit_hid_init) by (vm_compute in Hopen; congruence). subst e.
    exists dap', w'. split; [reflexivity|].
    exact (open_hid_exit_by_exit _ _ _ _ _ _ _ _ Hopen).
Defined.

(** X9.  A failing open changes nothing in the session but the two
    pointers it owns.  The packet sizes and the [command] and [response]
    views are as before on every failing return; the session is untouched
    when [hid_init], the serial buffer or the search fails; [bdata] is NULL
    after the failed allocation of the backend data or of the packet buffer,
    and points to backend data without a handle after a failed
    [hid_open_path]; [packet_buffer] is as before except after the failed
    allocation of the packet buffer, where close has freed and reset it. *)
Theorem open_failure_keeps_session (h : host) (dap : cmsis_dap)
    (ids : usb_ids) (serial : option string) (w : world) (e : open_exit)
    (dap' : cmsis_dap) (w' : world) :
  cmsis_dap_hid_open h dap ids serial w = Ok (e, dap', w') ->
  e <> Exit_ok ->
  same_views dap' dap
  /\ match e with
     | Exit_hid_init | Exit_serial_alloc | Exit_not_found => dap' = dap
     | Exit_bdata_alloc =>
         bdata dap' = None /\ packet_buffer dap' = packet_buffer dap
     | Exit_open_path =>
         bdata dap' = Some {| dev_handle := None |}
         /\ packet_buffer dap' = packet_buffer dap
     | Exit_buffer_alloc => bdata dap' = None /\ packet_buffer dap' = None
     | Exit_ok => True
     end.
Proof.
  intros Hopen Hfail. apply open_effects in Hopen as [_ Heff].
  destruct e; cbn in Heff; try (now elim Hfail);
    destruct Heff as (-> & _); repeat split.
Qed.

Lemma open_failure_keeps_session_witness :
  exists w',
    cmsis_dap_hid_open starved_host session64 [] None (with_mallocs open_world 0)
    = Ok (Exit_buffer_alloc, set_packet_buffer (set_bdata session64 None) None, w')
    /\ packet_buffer_size (set_packet_buffer (set_bdata session64 None) None) = 65
    /\ command (set_packet_buffer (set_bdata session64 None) None) = Some 1.
Proof.
  destruct (cmsis_dap_hid_open starved_host session64 [] None (with_mallocs open_world 0))
    as [[[e dap'] w']|] eqn:Hopen; [|discriminate Hopen].
  assert (He : e = Exit_buffer_alloc /\ dap' = set_packet_buffer (set_bdata session64 None) None)
    by (vm_compute in Hopen; injection Hopen as He Hd _; subst e dap';
        split; reflexivity).
  destruct He as [-> ->].
  destruct (open_failure_keeps_session _ _ _ _ _ _ _ _ Hopen) as [Hviews _];
    [discriminate|].
  destruct Hviews as (_ & _ & Hsize & Hcmd & _).
  exists w'. split; [reflexivity|]. split; [exact Hsize | exact Hcmd].
Defined.

(** X10.  The enumeration after open, by the return taken: it is still
    outstanding after the two returns that report a failed allocation of
    the serial buffer or of the backend data, and after no other; a failed
    [hid_init] obtains none. *)
Theorem open_enumeration_by_exit (h : host) (dap : cmsis_dap) (ids : usb_ids)
    (serial : option string) (w : world) (e : open_exit) (dap' : cmsis_dap)
    (w' : world) :
  cmsis_dap_hid_open h dap ids serial w = Ok (e, dap', w') ->
  (enums_live w' = S (enums_live w)
   <-> e = Exit_serial_alloc \/ e = Exit_bdata_alloc)
  /\ (enums_live w' = enums_live w
      <-> e <> Exit_serial_alloc /\ e <> Exit_bdata_alloc).
Proof.
  intros Hopen. apply open_enumeration_balance in Hopen.
  destruct e; cbn in Hopen;
    (split;
     [ split;
       [ intros H; first [lia | left; reflexivity | right; reflexivity]
       | intros H; first [exact Hopen | destruct H; discriminate] ]
     | split;
       [ intros H; first [lia | split; discriminate]
       | intros [H1 H2]; first [exact Hopen | congruence] ] ]).
Qed.

Lemma open_enumeration_by_exit_witness :
  exists dap' w',
    cmsis_dap_hid_open locked_host blank_dap [] None idle_world
    = Ok (Exit_open_path, dap', w')
    /\ enums_live w' = enums_live idle_world.
Proof.
  destruct (cmsis_dap_hid_open locked_host blank_dap [] None idle_world)
    as [[[e dap'] w']|] eqn:Hopen; [|discriminate Hopen].
  assert (He : e = Exit_open_path) by (vm_compute in Hopen; congruence). subst e.
  exists dap', w'. split; [reflexivity|].
  apply (proj2 (open_enumeration_by_exit _ _ _ _ _ _ _ _ Hopen)).
  split; discriminate.
Defined.

(** ** Success, and the device without ids *)

Lemma scan_first_active_count (h : host) (ids : usb_ids) (serial : option string)
    (w : world) (before : list hid_device_info) (d : hid_device_info) :
  serial_ready h serial w ->
  (forall x, In x before -> ~ active_predicate h ids serial x) ->
  active_predicate h ids serial d ->
  exists k, (n_malloc w <= k)%nat /\ forall after,
    scan_devices h ids serial (before ++ d :: after) w
    = Ok (Scan_left (Some d), with_mallocs w k).
Proof.
  intros Hready Hno Hact.
  destruct (scan_skips h ids serial before w Hready Hno) as [k [Hk Hskip]].
  destruct (scan_step h ids serial d (with_mallocs w k)) as [k' [Hk' [[_ Hstop]|[Hn _]]]].
  - now apply serial_ready_later.
  - exists k'. split; [cbn in Hk'; lia|]. intros after.
    rewrite Hskip, Hstop. reflexivity.
  - contradiction.
Qed.

(** X11.  Open succeeds on the first device of the enumeration that
    satisfies the active predicate, provided HIDAPI initialises, the serial
    converts, memory lasts, the device's ids are not both 0 and its path can
    be opened.  The session then holds the new handle and a packet buffer of
    [packet_size + 1] bytes with [packet_size] the result of the quirk lookup
    for that device, 64 or 512; the enumeration is released, and the world
    has one handle and two blocks more. *)
Theorem open_succeeds_on_first_active_device (h : host) (dap : cmsis_dap)
    (ids : usb_ids) (serial : option string) (w : world)
    (before after : list hid_device_info) (d : hid_device_info) :
  hid_init_ret h = 0 ->
  serial_ready h serial w ->
  memory_to_spare h w ->
  hid_devices h = before ++ d :: after ->
  (forall x, In x before -> ~ active_predicate h ids serial x) ->
  active_predicate h ids serial d ->
  ~ (vendor_id d = 0 /\ product_id d = 0) ->
  hid_can_open h (path d) = true ->
  exists dap' w',
    cmsis_dap_hid_open h dap ids serial w = Ok (Exit_ok, dap', w')
    /\ connected dap' (next_handle w)
    /\ allocated dap'
    /\ packet_size dap' = open_packet_size (vendor_id d) (product_id d)
    /\ (packet_size dap' = 64 \/ packet_size dap' = 512)
    /\ handles w' = next_handle w :: handles w
    /\ heap_blocks w' = S (S (heap_blocks w))
    /\ enums_live w' = enums_live w.
Proof.
  intros Hinit Hready Hmem Hdevs Hno Hact Hids Hpath.
  assert (Hready1 : serial_ready h serial (scan_start h w))
    by (apply (serial_ready_same_count h serial w); [reflexivity | exact Hready]).
  destruct (scan_first_active_count h ids serial (scan_start h w) before d
              Hready1 Hno Hact) as [k [Hk Hscan]].
  specialize (Hscan after). rewrite <- Hdevs in Hscan.
  assert (Hnz : (vendor_id d =? 0) && (product_id d =? 0) = false).
  { apply andb_false_iff.
    destruct (Z.eqb_spec (vendor_id d) 0); [|now left].
    destruct (Z.eqb_spec (product_id d) 0); [|now right].
    exfalso. now apply Hids. }
  assert (Hk0 : (n_malloc w <= k)%nat) by (cbn in Hk; lia).
  assert (Hopen : exists dap' w',
            cmsis_dap_hid_open h dap ids serial w = Ok (Exit_ok, dap', w')
            /\ packet_size dap' = open_packet_size (vendor_id d) (product_id d)).
  { unfold cmsis_dap_hid_open.
    unfold scan_start, hid_init, hid_enumerate in Hscan. rewrite Hinit in Hscan.
    unfold hid_init, hid_enumerate. rewrite Hinit.
    cbn [Z.eqb negb fst snd] in *. rewrite Hscan. cbn [bind].
    rewrite Hnz. unfold malloc at 1. cbn [n_malloc with_mallocs].
    rewrite (Hmem k Hk0). cbn [deref bind].
    unfold hid_open_path. rewrite Hpath.
    unfold cmsis_dap_hid_alloc, malloc. cbn [n_malloc hid_free_enumeration].
    rewrite (Hmem (S k)) by lia. cbn.
    eexists _, _. split; reflexivity. }
  destruct Hopen as (dap' & w' & Hopen & Hsize).
  exists dap', w'. split; [exact Hopen|].
  pose proof (open_enumeration_balance _ _ _ _ _ _ _ _ Hopen) as Henum.
  apply open_effects in Hopen as [_ (Hconn & Halloc & _ & Hheap & Hh & _)].
  split; [exact Hconn|]. split; [exact Halloc|]. split; [exact Hsize|].
  split; [rewrite Hsize; apply open_packet_size_values|].
  split; [exact Hh|]. split; [exact Hheap | exact Henum].
Qed.

Lemma open_succeeds_on_first_active_device_witness :
  exists dap' w',
    cmsis_dap_hid_open bench_host blank_dap [(0x0d28, 0x0204); (0x03eb, 0x2141)]
      (Some "J41800012345"%string) idle_world
    = Ok (Exit_ok, dap', w')
    /\ connected dap' 0
    /\ packet_size dap' = 512
    /\ handles w' = [0%nat].
Proof.
  destruct (open_succeeds_on_first_active_device bench_host blank_dap
              [(0x0d28, 0x0204); (0x03eb, 0x2141)] (Some "J41800012345"%string)
              idle_world [keyboard; lpc_link2 1] [daplink; lpc_link2 0] atmel_ice)
    as (dap' & w' & Hopen & Hconn & _ & Hsize & _ & Hh & _).
  - reflexivity.
  - split; [eexists; split; reflexivity | reflexivity].
  - intros k _. reflexivity.
  - reflexivity.
  - intros x [<-|[<-|[]]]; apply not_taken_iff; reflexivity.
  - apply taken_iff. reflexivity.
  - intros [Hv _]. discriminate Hv.
  - reflexivity.
  - exists dap', w'. repeat split; assumption.
Defined.

(** X12.  A device whose vendor id and product id are both 0 is never
    opened.  When the scan stops at one, which takes a filter whose first
    vendor id is 0, open takes it for no match: it returns by the not-found
    exit, with the enumeration released and nothing allocated or opened.
    With any other filter the scan does not stop at such a device. *)
Theorem open_takes_zero_ids_for_no_match (h : host) (dap : cmsis_dap)
    (ids : usb_ids) (serial : option string) (w w1 : world)
    (d : hid_device_info) :
  hid_init_ret h = 0 ->
  scan_devices h ids serial (hid_devices h) (scan_start h w)
    = Ok (Scan_left (Some d), w1) ->
  vendor_id d = 0 -> product_id d = 0 ->
  first_vid_is_zero ids = true
  /\ exists w',
       cmsis_dap_hid_open h dap ids serial w = Ok (Exit_not_found, dap, w')
       /\ enums_live w' = enums_live w
       /\ handles w' = handles w
       /\ heap_blocks w' = heap_blocks w
       /\ n_malloc w' = n_malloc w1.
Proof.
  intros Hinit Hscan Hv Hp. split.
  - pose proof (scan_selects_found _ _ _ _ _ _ _ Hscan) as [_ Hfound].
    apply device_found_iff in Hfound as [Hfilter _].
    destruct (first_vid_is_zero ids); [reflexivity|].
    exfalso. unfold listed in Hfilter. rewrite Hv, Hp in Hfilter.
    clear -Hfilter. induction ids as [|[v p] ids IH]; cbn in Hfilter; [easy|].
    destruct ((v =? 0) && (p =? 0)) eqn:E; [easy|].
    destruct Hfilter as [[= -> ->]|Hin]; [discriminate E | now apply IH].
  - destruct (scan_world _ _ _ _ _ _ _ Hscan) as [k Hw1].
    unfold cmsis_dap_hid_open.
    unfold scan_start, hid_init, hid_enumerate in Hscan, Hw1. rewrite Hinit in Hscan, Hw1.
    unfold hid_init, hid_enumerate. rewrite Hinit.
    cbn [Z.eqb negb fst snd] in *. rewrite Hscan. cbn [bind].
    rewrite Hv, Hp. cbn [Z.eqb andb].
    eexists. split; [reflexivity|]. subst w1. repeat split.
Qed.

Lemma open_takes_zero_ids_for_no_match_witness :
  scan_devices zero_ids_host [] None (hid_devices zero_ids_host)
    (scan_start zero_ids_host idle_world)
  = Ok (Scan_left (Some zero_ids_probe), scan_start zero_ids_host idle_world)
  /\ exists w',
       cmsis_dap_hid_open zero_ids_host blank_dap [] None idle_world
       = Ok (Exit_not_found, blank_dap, w')
       /\ handles w' = [].
Proof.
  split; [reflexivity|].
  destruct (open_takes_zero_ids_for_no_match zero_ids_host blank_dap [] None
              idle_world (scan_start zero_ids_host idle_world) zero_ids_probe
              eq_refl eq_refl eq_refl eq_refl)
    as (_ & w' & Hopen & _ & Hh & _).
  exists w'. split; assumption.
Defined.

(** ** Close and free *)

Lemma close_effects (dap : cmsis_dap) (dev : nat) (w : world) :
  connected dap dev ->
  exists w',
    cmsis_dap_hid_close dap w
    = Ok (set_packet_buffer (set_bdata dap None) None, w')
    /\ handles w' = handles_without dev (handles w)
    /\ hid_ready w' = false
    /\ heap_blocks w'
       = match packet_buffer dap with
         | Some _ => Nat.pred (Nat.pred (heap_blocks w))
         | None => Nat.pred (heap_blocks w)
         end
    /\ enums_live w' = enums_live w
    /\ next_handle w' = next_handle w
    /\ hid_log w' = hid_log w.
Proof.
  intros Hconn. unfold connected in Hconn.
  unfold cmsis_dap_hid_close, cmsis_dap_hid_free. rewrite Hconn.
  cbn [deref bind dev_handle]. eexists. split; [reflexivity|].
  cbn. destruct (packet_buffer dap); cbn; repeat split.
Qed.

(** X14.  A closed session cannot be used.  After close [bdata] and
    [packet_buffer] are NULL while the sizes and the [command] and
    [response] pointers are left as they were, pointing into the freed
    buffer; a read, a write or a second close on that session dereferences a
    null pointer. *)
Theorem closed_session_unusable (h : host) (dap dap' : cmsis_dap) (w w' : world) :
  cmsis_dap_hid_close dap w = Ok (dap', w') ->
  bdata dap' = None /\ packet_buffer dap' = None
  /\ same_views dap' dap
  /\ (forall w2, cmsis_dap_hid_close dap' w2 = Undefined)
  /\ (forall t b w2, cmsis_dap_hid_read h dap' t b w2 = Undefined)
  /\ (forall n t w2, cmsis_dap_hid_write h dap' n t w2 = Undefined).
Proof.
  unfold cmsis_dap_hid_close, cmsis_dap_hid_free.
  destruct (bdata dap) as [bd|]; cbn [deref bind]; [|discriminate].
  destruct (dev_handle bd) as [dev|]; cbn [deref bind]; [|discriminate].
  intros [= <- _]. repeat split.
Qed.

Lemma closed_session_unusable_witness :
  exists dap' w',
    cmsis_dap_hid_close session64 open_world = Ok (dap', w')
    /\ command dap' = Some 1
    /\ packet_buffer_size dap' = 65
    /\ cmsis_dap_hid_write bench_host dap' 4 0 w' = Undefined
    /\ cmsis_dap_hid_close dap' w' = Undefined.
Proof.
  destruct (cmsis_dap_hid_close session64 open_world) as [[dap' w']|] eqn:Hclose;
    [|discriminate Hclose].
  destruct (closed_session_unusable bench_host _ _ _ _ Hclose)
    as (_ & _ & (_ & _ & Hsize & Hcmd & _) & Hc & _ & Hw).
  exists dap', w'. split; [reflexivity|].
  split; [exact Hcmd|]. split; [exact Hsize|]. split; [apply Hw | apply Hc].
Defined.

(** X15.  Freeing the packet buffer twice is harmless, and a session
    without buffer cannot send.  [cmsis_dap_hid_free] resets
    [packet_buffer] to NULL, so that a second call frees nothing and changes
    nothing; it leaves the handle, the sizes and the two views alone.  Until
    the next allocation a write on the session stores through the null
    pointer and has no defined behaviour.  A read does not touch the buffer
    itself: it still asks the transport, handing it the null pointer, and
    when the transport times out or fails it returns
    [ERROR_TIMEOUT_REACHED] or [ERROR_FAIL] with the session as free left
    it. *)
Theorem free_twice_harmless (h : host) (dap : cmsis_dap) (w : world) :
  let freed := cmsis_dap_hid_free dap w in
  cmsis_dap_hid_free (fst freed) (snd freed) = freed
  /\ packet_buffer (fst freed) = None
  /\ bdata (fst freed) = bdata dap
  /\ same_views (fst freed) dap
  /\ heap_blocks (snd freed)
     = match packet_buffer dap with
       | Some _ => Nat.pred (heap_blocks w)
       | None => heap_blocks w
       end
  /\ (forall n t w2, cmsis_dap_hid_write h (fst freed) n t w2 = Undefined)
  /\ (forall dev t b w2,
        connected dap dev ->
        let answer := fst (hid_read_answer h (List.length (hid_log w2))
                             (packet_buffer_size dap) (read_wait_ms t b)) in
        let asked := log_call (Hid_read_timeout dev (packet_buffer_size dap)
                                 (read_wait_ms t b)) w2 in
        (answer = 0 ->
           cmsis_dap_hid_read h (fst freed) t b w2
           = Ok (ERROR_TIMEOUT_REACHED, fst freed, asked))
        /\ (answer = -1 ->
              cmsis_dap_hid_read h (fst freed) t b w2
              = Ok (ERROR_FAIL, fst freed, asked))).
Proof.
  cbn zeta. unfold cmsis_dap_hid_free. cbn [fst snd].
  split; [reflexivity|]. split; [reflexivity|]. split; [reflexivity|].
  split; [repeat split|]. split; [destruct (packet_buffer dap); reflexivity|].
  split; [intros n t w2; reflexivity|].
  intros dev t b w2 Hconn. unfold connected in Hconn.
  unfold cmsis_dap_hid_read, hid_read_timeout.
  cbn [bdata packet_buffer packet_buffer_size set_packet_buffer].
  rewrite Hconn. cbn [deref bind dev_handle].
  destruct (hid_read_answer h _ _ _) as [a data]. cbn [fst].
  split; intros ->.
  - replace (Z.to_nat (Z.min 0 (packet_buffer_size dap))) with 0%nat by lia.
    reflexivity.
  - replace (Z.to_nat (Z.min (-1) (packet_buffer_size dap))) with 0%nat by lia.
    reflexivity.
Qed.

Lemma free_twice_harmless_witness :
  connected session64 0
  /\ cmsis_dap_hid_read (answering_host 0)
       (fst (cmsis_dap_hid_free session64 open_world)) 250 CMSIS_DAP_BLOCKING
       (snd (cmsis_dap_hid_free session64 open_world))
     = Ok (ERROR_TIMEOUT_REACHED, fst (cmsis_dap_hid_free session64 open_world),
           log_call (Hid_read_timeout 0 65 250)
             (snd (cmsis_dap_hid_free session64 open_world)))
  /\ cmsis_dap_hid_write (answering_host 0)
       (fst (cmsis_dap_hid_free session64 open_world)) 4 0
       (snd (cmsis_dap_hid_free session64 open_world))
     = Undefined.
Proof.
  destruct (free_twice_harmless (answering_host 0) session64 open_world)
    as (_ & _ & _ & _ & _ & Hwrite & Hread).
  split; [reflexivity|]. split.
  - exact (proj1 (Hread 0%nat 250 CMSIS_DAP_BLOCKING
                    (snd (cmsis_dap_hid_free session64 open_world)) eq_refl)
             eq_refl).
  - apply Hwrite.
Defined.

(** X16.  Changing the packet size.  On a session with a buffer, free
    followed by alloc of a size below [UINT_MAX] gives a session with a
    buffer of the new size that still holds its handle, with as many live
    blocks as before.  If that allocation fails, alloc returns [ERROR_FAIL]
    and leaves the session as free left it: without buffer, and with the
    sizes of the old one.  Alloc does not free a buffer the session holds:
    called without the free it leaves one live block more. *)
Theorem free_then_alloc_resizes (h : host) (dap : cmsis_dap) (pkt_sz : Z)
    (w : world) :
  allocated dap -> 0 <= pkt_sz < UINT_MAX -> (0 < heap_blocks w)%nat ->
  let freed := cmsis_dap_hid_free dap w in
  (malloc_ok h (n_malloc w) = true ->
     (exists dap' w',
        cmsis_dap_hid_alloc h (fst freed) pkt_sz (snd freed) = (ERROR_OK, dap', w')
        /\ allocated dap'
        /\ packet_size dap' = pkt_sz
        /\ bdata dap' = bdata dap
        /\ heap_blocks w' = heap_blocks w)
     /\ (exists dap' w',
           cmsis_dap_hid_alloc h dap pkt_sz w = (ERROR_OK, dap', w')
           /\ heap_blocks w' = S (heap_blocks w)))
  /\ (malloc_ok h (n_malloc w) = false ->
        exists w',
          cmsis_dap_hid_alloc h (fst freed) pkt_sz (snd freed)
          = (ERROR_FAIL, fst freed, w')
          /\ packet_buffer (fst freed) = None
          /\ packet_size (fst freed) = packet_size dap
          /\ packet_buffer_size (fst freed) = packet_buffer_size dap).
Proof.
  intros Halloc Hsz Hheap freed. split.
  - intros Hmem. split.
    + open_session Halloc.
      unfold freed, cmsis_dap_hid_free, cmsis_dap_hid_alloc, malloc.
      rewrite Hbuf. cbn [fst snd free n_malloc]. rewrite Hmem.
      unfold REPORT_ID_SIZE. rewrite to_uint_small by lia.
      eexists _, _. split; [reflexivity|]. split.
      * eexists. cbn. unfold REPORT_ID_SIZE.
        repeat split; try reflexivity; try lia.
        rewrite length_map, length_seq. lia.
      * cbn. repeat split. lia.
    + unfold cmsis_dap_hid_alloc, malloc. rewrite Hmem.
      eexists _, _. split; reflexivity.
  - intros Hmem.
    unfold freed, cmsis_dap_hid_free, cmsis_dap_hid_alloc, malloc.
    cbn [fst snd]. 
    replace (n_malloc (free (packet_buffer dap) w)) with (n_malloc w)
      by (destruct (packet_buffer dap); reflexivity).
    rewrite Hmem. eexists. repeat split.
Qed.

Lemma free_then_alloc_resizes_witness :
  exists dap' w',
    cmsis_dap_hid_alloc bench_host (fst (cmsis_dap_hid_free session64 open_world)) 512
      (snd (cmsis_dap_hid_free session64 open_world))
    = (ERROR_OK, dap', w')
    /\ packet_size dap' = 512
    /\ connected dap' 0
    /\ heap_blocks w' = 2%nat.
Proof.
  assert (R : 0 <= 512 < UINT_MAX) by (split; [discriminate | reflexivity]).
  destruct (free_then_alloc_resizes bench_host session64 512 open_world
              session64_allocated R (le_S 1 1 (le_n 1))) as [Hok _].
  destruct (Hok eq_refl) as [(dap' & w' & Hrun & _ & Hsize & Hb & Hheap) _].
  exists dap', w'. repeat split; assumption.
Defined.

(** ** Transfers *)

Lemma frame_of_twice (buf : list Z) (ps n m : Z) :
  Z.of_nat (List.length buf) = ps + 1 -> 0 <= n <= ps -> 0 <= m <= ps ->
  frame_of (frame_of buf ps n) ps m = frame_of buf ps (Z.min n m).
Proof.
  intros Hl Hn Hm.
  assert (Hl1 : Z.of_nat (List.length (frame_of buf ps n)) = ps + 1)
    by now apply frame_of_length.
  apply (nth_ext _ _ 0 0).
  - apply Nat2Z.inj. rewrite !frame_of_length; trivial; lia.
  - intros i Hi. destruct i as [|j]; [reflexivity|].
    destruct (Nat.lt_ge_cases j (Z.to_nat (Z.min n m))) as [Hj|Hj].
    + rewrite !frame_of_command by (trivial; lia). reflexivity.
    + rewrite (frame_of_padding buf ps (Z.min n m)) by (trivial; lia).
      destruct (Nat.lt_ge_cases j (Z.to_nat m)) as [Hjm|Hjm].
      * rewrite frame_of_command by (trivial; lia).
        apply frame_of_padding; trivial; lia.
      * apply frame_of_padding; trivial; lia.
Qed.

(** X17.  Two writes in a row, with lengths within the packet and without
    the command being filled in again in between: the second hands over the
    report of the smaller of the two lengths, since the padding of the first
    has zeroed the command bytes behind its length.  In particular a write
    repeated with the same length sends the same report again. *)
Theorem write_twice_sends_shorter_frame (h : host) (dap : cmsis_dap) (dev : nat)
    (buf : list Z) (n m t t' : Z) (w : world) :
  allocated dap -> connected dap dev -> packet_buffer dap = Some buf ->
  0 <= n <= packet_size dap -> 0 <= m <= packet_size dap ->
  exists r1 dap1 w1 r2 dap2 w2,
    cmsis_dap_hid_write h dap n t w = Ok (r1, dap1, w1)
    /\ cmsis_dap_hid_write h dap1 m t' w1 = Ok (r2, dap2, w2)
    /\ hid_log w2
       = Hid_write dev (frame_of buf (packet_size dap) (Z.min n m))
         :: Hid_write dev (frame_of buf (packet_size dap) n) :: hid_log w
    /\ packet_buffer dap2 = Some (frame_of buf (packet_size dap) (Z.min n m)).
Proof.
  intros Halloc Hconn Hbuf Hn Hm.
  pose proof (write_in_range h dap dev buf n t w Halloc Hconn Hbuf Hn) as H1.
  assert (Hlen : Z.of_nat (List.length buf) = packet_size dap + 1).
  { pose proof Halloc as Hs. open_session Hs. assert (buf0 = buf) by congruence.
    subst buf0. lia. }
  assert (Halloc1 : allocated (set_packet_buffer dap
                      (Some (frame_of buf (packet_size dap) n)))).
  { apply (allocated_set_buffer dap buf); trivial.
    apply Nat2Z.inj. rewrite frame_of_length by trivial. lia. }
  pose proof (write_in_range h _ dev (frame_of buf (packet_size dap) n) m t'
                (log_call (Hid_write dev (frame_of buf (packet_size dap) n)) w)
                Halloc1 Hconn eq_refl Hm) as H2.
  cbn [packet_size set_packet_buffer] in H2.
  rewrite frame_of_twice in H2 by trivial.
  eexists _, _, _, _, _, _. split; [exact H1|]. split; [exact H2|].
  split; reflexivity.
Qed.

Lemma write_twice_sends_shorter_frame_witness :
  exists r1 dap1 w1 r2 dap2 w2,
    cmsis_dap_hid_write (answering_host 65) session64 2 0 open_world = Ok (r1, dap1, w1)
    /\ cmsis_dap_hid_write (answering_host 65) dap1 4 0 w1 = Ok (r2, dap2, w2)
    /\ hid_log w2
       = [Hid_write 0 (0 :: [0x00; 0xfe] ++ repeat 0 62);
          Hid_write 0 (0 :: [0x00; 0xfe] ++ repeat 0 62)].
Proof.
  assert (R2 : 0 <= 2 <= packet_size session64) by (split; discriminate).
  assert (R4 : 0 <= 4 <= packet_size session64) by (split; discriminate).
  destruct (write_twice_sends_shorter_frame (answering_host 65) session64 0 _
              2 4 0 0 open_world session64_allocated eq_refl eq_refl R2 R4)
    as (r1 & dap1 & w1 & r2 & dap2 & w2 & H1 & H2 & Hlog & _).
  exists r1, dap1, w1, r2, dap2, w2. repeat split; assumption.
Defined.

Lemma frame_of_nothing (buf : list Z) (ps : Z) :
  0 <= ps -> frame_of buf ps 0 = repeat 0 (Z.to_nat (ps + 1)).
Proof.
  intros Hps. unfold frame_of. rewrite Z.sub_0_r.
  replace (Z.to_nat (ps + 1)) with (S (Z.to_nat ps)) by lia.
  reflexivity.
Qed.

Lemma frame_of_everything (b : Z) (rest : list Z) (ps : Z) :
  Z.of_nat (List.length rest) = ps ->
  frame_of (b :: rest) ps ps = 0 :: rest.
Proof.
  intros Hl. unfold frame_of. rewrite Z.sub_diag. cbn [skipn Z.to_nat repeat].
  rewrite app_nil_r, <- Hl, Nat2Z.id, firstn_all. reflexivity.
Qed.

(** X18.  The two ends of the range of write.  With a payload length of 0
    the report is all zeros, whatever the buffer held: the report id and
    [packet_size] bytes of padding.  With a payload length of [packet_size]
    the pad length is 0 and nothing is filled: the report is the buffer with
    its first byte set to 0. *)
Theorem write_at_the_ends_of_the_range (h : host) (dap : cmsis_dap) (dev : nat)
    (b : Z) (rest : list Z) (t : Z) (w : world) :
  allocated dap -> connected dap dev -> packet_buffer dap = Some (b :: rest) ->
  (exists r dap' w',
     cmsis_dap_hid_write h dap 0 t w = Ok (r, dap', w')
     /\ hid_log w'
        = Hid_write dev (repeat 0 (Z.to_nat (packet_buffer_size dap))) :: hid_log w)
  /\ pad_length dap (packet_size dap) = 0
  /\ (exists r dap' w',
        cmsis_dap_hid_write h dap (packet_size dap) t w = Ok (r, dap', w')
        /\ hid_log w' = Hid_write dev (0 :: rest) :: hid_log w
        /\ packet_buffer dap' = Some (0 :: rest)).
Proof.
  intros Halloc Hconn Hbuf.
  assert (Hfacts : Z.of_nat (List.length rest) = packet_size dap
                   /\ packet_buffer_size dap = packet_size dap + 1
                   /\ 0 <= packet_size dap).
  { pose proof Halloc as Hs. open_session Hs.
    assert (buf = b :: rest) by congruence. subst buf.
    cbn [List.length] in Hlen. lia. }
  destruct Hfacts as (Hl & Hsize & Hps).
  split; [|split].
  - pose proof (write_in_range h dap dev (b :: rest) 0 t w Halloc Hconn Hbuf) as H0.
    rewrite frame_of_nothing in H0 by exact Hps.
    rewrite <- Hsize in H0.
    eexists _, _, _. split; [apply H0; lia | reflexivity].
  - unfold pad_length. rewrite Z.sub_diag. reflexivity.
  - pose proof (write_in_range h dap dev (b :: rest) (packet_size dap) t w
                  Halloc Hconn Hbuf) as Hfull.
    rewrite frame_of_everything in Hfull by exact Hl.
    eexists _, _, _. split; [apply Hfull; lia|]. split; reflexivity.
Qed.

Lemma write_at_the_ends_of_the_range_witness :
  (exists r dap' w',
     cmsis_dap_hid_write (answering_host 65) session64 0 0 open_world = Ok (r, dap', w')
     /\ hid_log w' = [Hid_write 0 (repeat 0 65)])
  /\ (exists r dap' w',
        cmsis_dap_hid_write (answering_host 65) session64 64 0 open_world
        = Ok (r, dap', w')
        /\ hid_log w' = [Hid_write 0 (0 :: [0x00; 0xfe; 0x01; 0x02] ++ repeat 0xa5 60)]).
Proof.
  destruct (write_at_the_ends_of_the_range (answering_host 65) session64 0 _ _ 0
              open_world session64_allocated eq_refl eq_refl)
    as (H0 & _ & Hfull).
  split.
  - destruct H0 as (r & dap' & w' & Hw & Hlog). now exists r, dap', w'.
  - destruct Hfull as (r & dap' & w' & Hw & Hlog & _). now exists r, dap', w'.
Defined.

(** X19.  What the return value of a transfer can be, on a transport that
    keeps to the contract of HIDAPI.  Read makes exactly one call of
    [hid_read_timeout], for [packet_buffer_size] bytes, and returns a
    positive byte count, which is then the count the transport reported, or
    [ERROR_TIMEOUT_REACHED], or [ERROR_FAIL]: never 0 and never the -1 of the
    transport.  Write makes exactly one call of [hid_write] and returns
    [ERROR_FAIL] or the non-negative count the transport reported.  So a
    negative return value means that no report was transferred, and only
    that. *)
Theorem transfer_return_values (h : host) :
  hidapi_host h ->
  (forall dap t b w r dap' w',
     cmsis_dap_hid_read h dap t b w = Ok (r, dap', w') ->
     (exists dev,
        hid_log w'
        = Hid_read_timeout dev (packet_buffer_size dap) (read_wait_ms t b)
          :: hid_log w)
     /\ r <> 0
     /\ let answer := fst (hid_read_answer h (List.length (hid_log w))
                             (packet_buffer_size dap) (read_wait_ms t b)) in
        (0 < answer /\ r = answer)
        \/ (answer = 0 /\ r = ERROR_TIMEOUT_REACHED)
        \/ (answer = -1 /\ r = ERROR_FAIL))
  /\
  (forall dap n t w r dap' w',
     cmsis_dap_hid_write h dap n t w = Ok (r, dap', w') ->
     exists dev data,
       hid_log w' = Hid_write dev data :: hid_log w
       /\ let answer := hid_write_answer h (List.length (hid_log w)) data in
          (0 <= answer /\ r = answer) \/ (answer = -1 /\ r = ERROR_FAIL)).
Proof.
  intros [Hread Hwrite]. split.
  - intros dap t b w r dap' w'. unfold cmsis_dap_hid_read.
    destruct (bdata dap) as [bd|]; [|discriminate]. cbn [deref bind].
    destruct (dev_handle bd) as [dev|]; [|discriminate]. cbn [deref bind].
    unfold hid_read_timeout.
    specialize (Hread (List.length (hid_log w)) (packet_buffer_size dap)
                  (read_wait_ms t b)).
    destruct (hid_read_answer h _ _ _) as [a received]. cbn [fst] in *.
    destruct (receive (packet_buffer dap) _) as [filled|]; [|discriminate].
    cbn [bind]. unfold hidapi_result in Hread.
    destruct (Z.eqb_spec a 0) as [->|Hz].
    { intros [= <- _ <-]. split; [exists dev; reflexivity|].
      split; [discriminate|]. right. left. split; reflexivity. }
    destruct (Z.eqb_spec a (-1)) as [->|Hm].
    { intros [= <- _ <-]. split; [exists dev; reflexivity|].
      split; [discriminate|]. right. right. split; reflexivity. }
    intros [= <- _ <-]. split; [exists dev; reflexivity|].
    split; [exact Hz|]. left. split; [lia | reflexivity].
  - intros dap n t w r dap' w'. unfold cmsis_dap_hid_write.
    destruct (packet_buffer dap) as [buf|]; [|discriminate]. cbn [deref bind].
    destruct (memset buf 0 0 1) as [buf1|]; [|discriminate]. cbn [bind].
    destruct (command dap) as [cmd|]; [|discriminate]. cbn [deref bind].
    destruct (memset buf1 _ 0 _) as [buf2|]; [|discriminate]. cbn [bind].
    destruct (bdata dap) as [bd|]; [|discriminate]. cbn [deref bind].
    destruct (dev_handle bd) as [dev|]; [|discriminate]. cbn [deref bind].
    destruct (load_bytes buf2 _) as [data|]; [|discriminate]. cbn [bind].
    unfold hid_write.
    specialize (Hwrite (List.length (hid_log w)) data).
    unfold hidapi_result in Hwrite.
    destruct (Z.eqb_spec (hid_write_answer h (List.length (hid_log w)) data) (-1))
      as [Ha|Ha].
    + intros [= <- _ <-]. exists dev, data. split; [reflexivity|].
      right. split; [exact Ha | reflexivity].
    + intros [= <- _ <-]. exists dev, data. split; [reflexivity|].
      left. split; [lia | reflexivity].
Qed.

Lemma answering_host_keeps_contract (r : Z) : -1 <= r -> hidapi_host (answering_host r).
Proof. intros Hr. split; intros; exact Hr. Defined.

Lemma transfer_return_values_witness :
  hidapi_host (answering_host 3)
  /\ (exists dap' w',
        cmsis_dap_hid_read (answering_host 3) session64 250 CMSIS_DAP_BLOCKING open_world
        = Ok (3, dap', w'))
  /\ (exists dap' w',
        cmsis_dap_hid_write (answering_host 3) session64 4 0 open_world
        = Ok (3, dap', w')).
Proof.
  assert (C : hidapi_host (answering_host 3))
    by (apply answering_host_keeps_contract; discriminate).
  destruct (transfer_return_values (answering_host 3) C) as [Hread Hwrite].
  split; [exact C|]. split.
  - destruct (cmsis_dap_hid_read (answering_host 3) session64 250
                CMSIS_DAP_BLOCKING open_world) as [[[r dap'] w']|] eqn:Hr;
      [|discriminate Hr].
    destruct (Hread _ _ _ _ _ _ _ Hr) as (_ & _ & [[_ ->]|[[Ha _]|[Ha _]]]);
      [|discriminate Ha|discriminate Ha].
    exists dap', w'. reflexivity.
  - destruct (cmsis_dap_hid_write (answering_host 3) session64 4 0 open_world)
      as [[[r dap'] w']|] eqn:Hw; [|discriminate Hw].
    destruct (Hwrite _ _ _ _ _ _ _ Hw) as (dev & data & _ & [[_ ->]|[Ha _]]);
      [|discriminate Ha].
    exists dap', w'. reflexivity.
Defined.

(** ** A whole session *)

Lemma read_world (h : host) (dap : cmsis_dap) (t : Z) (b : cmsis_dap_blocking)
    (w : world) (r : Z) (dap' : cmsis_dap) (w' : world) :
  cmsis_dap_hid_read h dap t b w = Ok (r, dap', w') ->
  exists c, w' = log_call c w.
Proof.
  unfold cmsis_dap_hid_read.
  destruct (bdata dap) as [bd|]; [|discriminate]. cbn [deref bind].
  destruct (dev_handle bd) as [dev|]; [|discriminate]. cbn [deref bind].
  unfold hid_read_timeout. destruct (hid_read_answer h _ _ _) as [a received].
  destruct (receive (packet_buffer dap) _) as [filled|]; [|discriminate].
  cbn [bind].
  destruct (a =? 0); [intros [= _ _ <-]; eexists; reflexivity|].
  destruct (a =? -1); intros [= _ _ <-]; eexists; reflexivity.
Qed.

Lemma write_world (h : host) (dap : cmsis_dap) (n t : Z) (w : world) (r : Z)
    (dap' : cmsis_dap) (w' : world) :
  cmsis_dap_hid_write h dap n t w = Ok (r, dap', w') ->
  exists c, w' = log_call c w.
Proof.
  unfold cmsis_dap_hid_write.
  destruct (packet_buffer dap) as [buf|]; [|discriminate]. cbn [deref bind].
  destruct (memset buf 0 0 1) as [buf1|]; [|discriminate]. cbn [bind].
  destruct (command dap) as [cmd|]; [|discriminate]. cbn [deref bind].
  destruct (memset buf1 _ 0 _) as [buf2|]; [|discriminate]. cbn [bind].
  destruct (bdata dap) as [bd|]; [|discriminate]. cbn [deref bind].
  destruct (dev_handle bd) as [dev|]; [|discriminate]. cbn [deref bind].
  destruct (load_bytes buf2 _) as [data|]; [|discriminate]. cbn [bind].
  unfold hid_write.
  destruct (_ =? -1); intros [= _ _ <-]; eexists; reflexivity.
Qed.

(** A run of operations asks one transfer of the transport for every read
    and write, and touches no other resource of the host. *)
Lemma run_ops_world (h : host) (ops : list session_op) :
  forall dap w dap' w',
  run_ops h ops dap w = Ok (dap', w') ->
  handles w' = handles w
  /\ heap_blocks w' = heap_blocks w
  /\ enums_live w' = enums_live w
  /\ hid_ready w' = hid_ready w
  /\ List.length (hid_log w') = (List.length (hid_log w) + transfers ops)%nat.
Proof.
  induction ops as [|op ops IH]; intros dap w dap' w' Hrun; cbn [run_ops] in Hrun.
  - injection Hrun as _ <-. repeat split. unfold transfers. cbn. lia.
  - destruct (run_op h op dap w) as [[s w1]|] eqn:E; [|discriminate].
    cbn [bind fst snd] in Hrun. apply IH in Hrun as (Hh & Hb & He & Hr & Hl).
    assert (Hstep : handles w1 = handles w /\ heap_blocks w1 = heap_blocks w
                    /\ enums_live w1 = enums_live w /\ hid_ready w1 = hid_ready w
                    /\ List.length (hid_log w1)
                       = (List.length (hid_log w) + transfers [op])%nat).
    { destruct op as [t b|n t|];
        cbn [run_op Backend.read Backend.write Backend.cancel_all cmsis_dap_hid_backend]
          in E.
      - destruct (cmsis_dap_hid_read h dap t b w) as [[[r s'] w2]|] eqn:R; [|discriminate].
        cbn in E. injection E as _ <-. apply read_world in R as [c ->].
        repeat split. cbn. lia.
      - destruct (cmsis_dap_hid_write h dap n t w) as [[[r s'] w2]|] eqn:R; [|discriminate].
        cbn in E. injection E as _ <-. apply write_world in R as [c ->].
        repeat split. cbn. lia.
      - unfold cmsis_dap_hid_cancel_all in E. injection E as _ <-.
        repeat split. cbn. lia. }
    destruct Hstep as (Hh1 & Hb1 & He1 & Hr1 & Hl1).
    repeat split; try congruence.
    rewrite Hl, Hl1. unfold transfers. cbn [filter].
    destruct op; cbn [List.length]; lia.
Qed.

(** X13.  A whole session balances.  After a successful open, every run of
    reads, cancel-alls and writes within the packet is defined, asks the
    transport for exactly one transfer per read and write, and is followed
    by a close that is defined too; after it the open handles, the number of
    live heap blocks and the outstanding enumerations are those from before
    the open, HIDAPI is finalised, and [bdata] and [packet_buffer] are
    NULL. *)
Theorem session_balances (h h' : host) (dap : cmsis_dap) (ids : usb_ids)
    (serial : option string) (w : world) (dap1 : cmsis_dap) (w1 : world)
    (ops : list session_op) :
  cmsis_dap_hid_open h dap ids serial w = Ok (Exit_ok, dap1, w1) ->
  fresh_handles w ->
  writes_within (packet_size dap1) ops ->
  exists dap2 w2 dap3 w3,
    run_ops h' ops dap1 w1 = Ok (dap2, w2)
    /\ List.length (hid_log w2) = (List.length (hid_log w) + transfers ops)%nat
    /\ cmsis_dap_hid_close dap2 w2 = Ok (dap3, w3)
    /\ handles w3 = handles w
    /\ heap_blocks w3 = heap_blocks w
    /\ enums_live w3 = enums_live w
    /\ hid_ready w3 = false
    /\ bdata dap3 = None
    /\ packet_buffer dap3 = None.
Proof.
  intros Hopen Hfresh Hops.
  pose proof (open_enumeration_balance _ _ _ _ _ _ _ _ Hopen) as Henum.
  apply open_effects in Hopen as [Hlog (Hconn & Halloc & _ & Hheap & Hh & _)].
  destruct (run_ops_defined h' (next_handle w) ops dap1 w1 Halloc Hconn Hops)
    as [[dap2 w2] Hrun].
  destruct (run_ops_keep_buffer h' ops dap1 w1 dap2 w2 Halloc Hrun)
    as (Halloc2 & _ & _ & Hbd).
  destruct (run_ops_world h' ops dap1 w1 dap2 w2 Hrun)
    as (Hh2 & Hb2 & He2 & _ & Hl2).
  assert (Hconn2 : connected dap2 (next_handle w))
    by (unfold connected in *; congruence).
  destruct (close_effects dap2 (next_handle w) w2 Hconn2)
    as (w3 & Hclose & Hh3 & Hr3 & Hb3 & He3 & _).
  exists dap2, w2, (set_packet_buffer (set_bdata dap2 None) None), w3.
  split; [exact Hrun|]. split; [now rewrite Hl2, Hlog|]. split; [exact Hclose|].
  split; [|split; [|split; [|repeat split]]].
  - rewrite Hh3, Hh2, Hh. unfold handles_without. cbn [filter].
    rewrite Nat.eqb_refl. cbn [negb]. now apply handles_without_fresh.
  - destruct Halloc2 as [buf (Hbuf & _)]. rewrite Hbuf in Hb3.
    rewrite Hb3, Hb2, Hheap. reflexivity.
  - now rewrite He3, He2.
  - exact Hr3.
Qed.

Lemma session_balances_witness :
  exists dap1 w1 dap2 w2 dap3 w3,
    cmsis_dap_hid_open bench_host blank_dap [] None busy_world = Ok (Exit_ok, dap1, w1)
    /\ run_ops (answering_host 513)
         [Op_write 4 0; Op_read 250 CMSIS_DAP_BLOCKING; Op_cancel_all] dap1 w1
       = Ok (dap2, w2)
    /\ List.length (hid_log w2) = 2%nat
    /\ cmsis_dap_hid_close dap2 w2 = Ok (dap3, w3)
    /\ handles w3 = [1%nat; 0%nat]
    /\ heap_blocks w3 = 3%nat.
Proof.
  destruct (cmsis_dap_hid_open bench_host blank_dap [] None busy_world)
    as [[[e dap1] w1]|] eqn:Hopen; [|discriminate Hopen].
  assert (He : e = Exit_ok /\ packet_size dap1 = 512).
  { vm_compute in Hopen. injection Hopen as He Hd _. subst e dap1.
    split; reflexivity. }
  destruct He as [-> Hsize].
  destruct (session_balances bench_host (answering_host 513) _ _ _ _ _ _
              [Op_write 4 0; Op_read 250 CMSIS_DAP_BLOCKING; Op_cancel_all]
              Hopen busy_world_fresh)
    as (dap2 & w2 & dap3 & w3 & Hrun & Hl & Hclose & Hh & Hb & _).
  - rewrite Hsize. repeat constructor; discriminate.
  - exists dap1, w1, dap2, w2, dap3, w3. repeat split; assumption.
Defined.
